(** * alien-ai: the batch tools [generate_jsonl.py] and [run_batch.py]

    A shallow embedding of the two batch scripts and the properties of
    their request identifiers, of the artifact they write, of the polling
    loop and of the download phase.

    Python values are modelled as follows.
    - [str] is a list of Unicode code points ([N]), so that [str.strip],
      [re.sub] and slicing count code points, as Python does.
    - [int] is [Z].
    - a [float] is carried by the literal that [float.__repr__] prints for
      it (the scripts never compute with one).
    - a [dict] that is serialised is an association list in insertion order.
    - an exception is a value of [exn] returned next to the state reached. *)

From Stdlib Require Import ZArith NArith String Ascii Lia.
From Stdlib Require Import DecimalN.
From Stdlib Require DecimalPos.
From stdpp Require Import base list gmap.

Local Open Scope N_scope.

(** Python's [str]: code points. *)
Abbreviation pystr := (list N).

(** * Python's string library *)
Module Py.

(** An ASCII literal as a [str]. *)
Definition py (s : string) : pystr :=
  map N_of_ascii (list_ascii_of_string s).

(** [str.isspace] on one code point (the table of CPython's
    [_PyUnicode_IsWhitespace]). *)
Definition isspace (c : N) : bool :=
  ((9 <=? c) && (c <=? 13)) || ((28 <=? c) && (c <=? 32))
  || (c =? 133) || (c =? 160) || (c =? 5760)
  || ((8192 <=? c) && (c <=? 8202))
  || (c =? 8232) || (c =? 8233) || (c =? 8239) || (c =? 8287) || (c =? 12288).

Fixpoint lstrip (s : pystr) : pystr :=
  match s with
  | c :: s' => if isspace c then lstrip s' else s
  | [] => []
  end.

Definition rstrip (s : pystr) : pystr := reverse (lstrip (reverse s)).

(** [s.strip()] *)
Definition strip (s : pystr) : pystr := rstrip (lstrip s).

(** [s.split(sep)] for a separator of one character: the pieces between
    the occurrences of [sep]; the result always has a first piece. *)
Fixpoint split (sep : N) (s : pystr) : list pystr :=
  match s with
  | [] => [[]]
  | c :: s' =>
      if c =? sep then [] :: split sep s'
      else match split sep s' with
           | w :: ws => (c :: w) :: ws
           | [] => [[c]]
           end
  end.

(** [l[0]] and [l[-1]] on the result of a [split], which is never empty
    ([split_not_nil]); the default stands for the IndexError that cannot
    happen there. *)
Definition first (l : list pystr) : pystr := hd [] l.
Definition final (l : list pystr) : pystr := List.last l [].

(** [x or y] on strings: the empty string is falsy. *)
Definition or_else (x y : pystr) : pystr :=
  match x with [] => y | _ => x end.

(** Decimal digits. *)
Inductive digit := d0 | d1 | d2 | d3 | d4 | d5 | d6 | d7 | d8 | d9.

Definition digit_char (d : digit) : N :=
  match d with
  | d0 => 48 | d1 => 49 | d2 => 50 | d3 => 51 | d4 => 52
  | d5 => 53 | d6 => 54 | d7 => 55 | d8 => 56 | d9 => 57
  end.

Definition char_digit (c : N) : option digit :=
  match c with
  | 48 => Some d0 | 49 => Some d1 | 50 => Some d2 | 51 => Some d3
  | 52 => Some d4 | 53 => Some d5 | 54 => Some d6 | 55 => Some d7
  | 56 => Some d8 | 57 => Some d9 | _ => None
  end.

(** The standard library's decimal numerals, as lists of digits. *)
Fixpoint uint_digits (u : Decimal.uint) : list digit :=
  match u with
  | Decimal.Nil => []
  | Decimal.D0 u => d0 :: uint_digits u
  | Decimal.D1 u => d1 :: uint_digits u
  | Decimal.D2 u => d2 :: uint_digits u
  | Decimal.D3 u => d3 :: uint_digits u
  | Decimal.D4 u => d4 :: uint_digits u
  | Decimal.D5 u => d5 :: uint_digits u
  | Decimal.D6 u => d6 :: uint_digits u
  | Decimal.D7 u => d7 :: uint_digits u
  | Decimal.D8 u => d8 :: uint_digits u
  | Decimal.D9 u => d9 :: uint_digits u
  end.

Fixpoint digits_uint (l : list digit) : Decimal.uint :=
  match l with
  | [] => Decimal.Nil
  | d0 :: l => Decimal.D0 (digits_uint l)
  | d1 :: l => Decimal.D1 (digits_uint l)
  | d2 :: l => Decimal.D2 (digits_uint l)
  | d3 :: l => Decimal.D3 (digits_uint l)
  | d4 :: l => Decimal.D4 (digits_uint l)
  | d5 :: l => Decimal.D5 (digits_uint l)
  | d6 :: l => Decimal.D6 (digits_uint l)
  | d7 :: l => Decimal.D7 (digits_uint l)
  | d8 :: l => Decimal.D8 (digits_uint l)
  | d9 :: l => Decimal.D9 (digits_uint l)
  end.

Definition digits_str (l : list digit) : pystr := map digit_char l.

(** [str(n)] for a natural number. *)
Definition str_of_N (n : N) : pystr := digits_str (uint_digits (N.to_uint n)).

(** [int(text)] on a run of digits. *)
Definition N_of_digits (l : list digit) : N := N.of_uint (digits_uint l).

(** The longest run of digits at the head of [s], and what follows it. *)
Fixpoint span_digits (s : pystr) : list digit * pystr :=
  match s with
  | c :: s' =>
      match char_digit c with
      | Some d => let (ds, rest) := span_digits s' in (d :: ds, rest)
      | None => ([], s)
      end
  | [] => ([], [])
  end.

(** [str(z)] for an [int]. *)
Definition str_of_Z (z : Z) : pystr :=
  match z with
  | Zneg p => 45 :: str_of_N (Npos p)
  | _ => str_of_N (Z.to_N z)
  end.

(** Left padding with ['0'] up to [width] characters. *)
Definition zfill (width : nat) (s : pystr) : pystr :=
  replicate (width - length s)%nat 48 ++ s.

(** [f"{z:05d}"]: the sign, if any, comes first and counts in the width. *)
Definition format_05d (z : Z) : pystr :=
  match z with
  | Zneg p => 45 :: zfill 4 (str_of_N (Npos p))
  | _ => zfill 5 (str_of_N (Z.to_N z))
  end.

(** The line boundaries of [str.splitlines]. *)
Definition is_linebreak (c : N) : bool :=
  ((10 <=? c) && (c <=? 13)) || ((28 <=? c) && (c <=? 30))
  || (c =? 133) || (c =? 8232) || (c =? 8233).

(** [s.splitlines()]: a CR LF pair is one boundary, and a boundary at the
    very end opens no further line. *)
Fixpoint splitlines (s : pystr) : list pystr :=
  match s with
  | [] => []
  | 13 :: 10 :: s' => [] :: splitlines s'
  | c :: s' =>
      if is_linebreak c then [] :: splitlines s'
      else match splitlines s' with
           | l :: ls => (c :: l) :: ls
           | [] => [[c]]
           end
  end.

(** A [str] can be encoded in UTF-8 unless it holds a lone surrogate
    (U+D800 to U+DFFF); writing one to a file opened with
    [encoding="utf-8"] raises UnicodeEncodeError. *)
Definition is_surrogate (c : N) : bool := (55296 <=? c) && (c <=? 57343).
Definition utf8_encodable (s : pystr) : bool := forallb (fun c => negb (is_surrogate c)) s.

(** A string that starts with no whitespace. *)
Definition clean_left (s : pystr) : Prop :=
  match s with [] => True | c :: _ => isspace c = false end.

(** The digits [format_05d] prints for an index that is not negative. *)
Definition index_digits (z : Z) : list digit :=
  let l := uint_digits (N.to_uint (Z.to_N z)) in
  replicate (5 - length l) d0 ++ l.

(** The exceptions the two scripts can raise. *)
Inductive exn :=
| SystemExit (msg : pystr)
| FileNotFoundError (path : pystr)
| UnicodeEncodeError
| UnicodeDecodeError
| ValueError (msg : pystr)
| AttributeError (name : pystr)
| OverflowError
| OpenAIError.

(** [enumerate(l, start)] *)
Fixpoint enumerate {A} (start : Z) (l : list A) : list (Z * A) :=
  match l with
  | [] => []
  | x :: l' => (start, x) :: enumerate (start + 1) l'
  end.

(** Every character of [s] is an ASCII character. *)
Definition is_ascii (s : pystr) : bool := forallb (fun c => c <? 128) s.

(** [dict[k] = v] on a dict kept in insertion order. *)
Fixpoint dict_set {A} (k : pystr) (v : A) (d : list (pystr * A)) : list (pystr * A) :=
  match d with
  | [] => [(k, v)]
  | (k', v') :: d' =>
      if decide (k = k') then (k, v) :: d' else (k', v') :: dict_set k v d'
  end.

(** [d.get(k)] *)
Fixpoint dict_get {A} (k : pystr) (d : list (pystr * A)) : option A :=
  match d with
  | [] => None
  | (k', v') :: d' => if decide (k = k') then Some v' else dict_get k d'
  end.


(** The value of a digit, and of a run of digits read from the left,
    after the value [acc] of the digits before it. *)
Definition digit_val (d : digit) : N :=
  match d with
  | d0 => 0 | d1 => 1 | d2 => 2 | d3 => 3 | d4 => 4
  | d5 => 5 | d6 => 6 | d7 => 7 | d8 => 8 | d9 => 9
  end.

Definition digits_val (acc : N) (l : list digit) : N :=
  fold_left (fun a d => digit_val d + 10 * a) l acc.

(** The elements of [l], each once, at the place of its first
    occurrence: the order of the keys of a dict filled from [l]. *)
Fixpoint first_occurrences (l : list pystr) : list pystr :=
  match l with
  | [] => []
  | x :: l' => x :: filter (fun y => y <> x) (first_occurrences l')
  end.

(** [s < t] on strings: the lexicographic order of the code points. *)
Fixpoint str_lt (s t : pystr) : bool :=
  match s, t with
  | _, [] => false
  | [], _ :: _ => true
  | a :: s', b :: t' => (a <? b) || ((a =? b) && str_lt s' t')
  end.

End Py.

Import Py.

(** * Python's [json] module: [json.dumps] and [json.loads] *)
Module Json.

(** A [float], by the literal its [repr] prints: [0.2] and [100.0] are
    [FFix], [1e-05] and [1.5e+16] are [FSci]. *)
Inductive pyfloat :=
| FNaN
| FInf (neg : bool)
| FFix (neg : bool) (ip : N) (f0 : digit) (fs : list digit)
| FSci (neg : bool) (ip : N) (fs : list digit) (eneg : bool) (eabs : N).

#[local] Set Warnings "-register-all".
Inductive json :=
| JNull
| JBool (b : bool)
| JInt (z : Z)
| JFloat (f : pyfloat)
| JStr (s : pystr)
| JList (l : list json)
| JDict (d : list (pystr * json)).

Definition sign_str (neg : bool) : pystr := if neg then [45] else [].

(** [float.__repr__], with the spellings [json.dumps] gives to the values
    that are not numbers. *)
Definition float_repr (f : pyfloat) : pystr :=
  match f with
  | FNaN => py "NaN"
  | FInf neg => sign_str neg ++ py "Infinity"
  | FFix neg ip f0 fs =>
      sign_str neg ++ str_of_N ip ++ 46 :: digits_str (f0 :: fs)
  | FSci neg ip fs eneg eabs =>
      sign_str neg ++ str_of_N ip
      ++ match fs with [] => [] | _ => 46 :: digits_str fs end
      ++ 101 :: (if eneg then 45 else 43) :: zfill 2 (str_of_N eabs)
  end.

Definition hex_char (n : N) : N := if n <? 10 then 48 + n else 87 + n.

(** One character inside a string literal ([ESCAPE_DCT] of
    [json.encoder], used when [ensure_ascii=False]). *)
Definition escape_char (c : N) : pystr :=
  if c =? 34 then [92; 34]
  else if c =? 92 then [92; 92]
  else if c =? 10 then [92; 110]
  else if c =? 13 then [92; 114]
  else if c =? 9 then [92; 116]
  else if c =? 8 then [92; 98]
  else if c =? 12 then [92; 102]
  else if c <? 32 then [92; 117; 48; 48; hex_char (c / 16); hex_char (c mod 16)]
  else [c].

(** [py_encode_basestring] *)
Definition encode_basestring (s : pystr) : pystr :=
  34 :: flat_map escape_char s ++ [34].

(** The items of a list or dict, separated by [", "]. *)
Definition sep_join {A} (f : A -> pystr) : list A -> pystr :=
  fix go l :=
    match l with
    | [] => []
    | x :: l' => f x ++ match l' with [] => [] | _ => 44 :: 32 :: go l' end
    end.

(** [json.dumps(v, ensure_ascii=False)] *)
Fixpoint dumps (v : json) : pystr :=
  match v with
  | JNull => py "null"
  | JBool true => py "true"
  | JBool false => py "false"
  | JInt z => str_of_Z z
  | JFloat f => float_repr f
  | JStr s => encode_basestring s
  | JList l => 91 :: sep_join dumps l ++ [93]
  | JDict d =>
      123 :: sep_join (fun kv => encode_basestring (fst kv) ++ 58 :: 32 :: dumps (snd kv)) d
          ++ [125]
  end.

(** The decoder. [WHITESPACE] is any run of space, tab, LF and CR. *)
Definition is_json_ws (c : N) : bool :=
  (c =? 32) || (c =? 9) || (c =? 10) || (c =? 13).

Fixpoint skip_ws (s : pystr) : pystr :=
  match s with
  | c :: s' => if is_json_ws c then skip_ws s' else s
  | [] => []
  end.

Definition hex_val (c : N) : option N :=
  if (48 <=? c) && (c <=? 57) then Some (c - 48)
  else if (97 <=? c) && (c <=? 102) then Some (c - 87)
  else if (65 <=? c) && (c <=? 70) then Some (c - 55)
  else None.

Definition hex4 (a b c d : N) : option N :=
  match hex_val a, hex_val b, hex_val c, hex_val d with
  | Some a, Some b, Some c, Some d => Some (((a * 16 + b) * 16 + c) * 16 + d)
  | _, _, _, _ => None
  end.

(** [BACKSLASH] of [json.decoder]. *)
Definition unescape (c : N) : option N :=
  if c =? 34 then Some 34
  else if c =? 92 then Some 92
  else if c =? 47 then Some 47
  else if c =? 98 then Some 8
  else if c =? 102 then Some 12
  else if c =? 110 then Some 10
  else if c =? 114 then Some 13
  else if c =? 116 then Some 9
  else None.

Definition is_high_surrogate (c : N) : bool := (55296 <=? c) && (c <=? 56319).
Definition is_low_surrogate (c : N) : bool := (56320 <=? c) && (c <=? 57343).

(** [py_scanstring] in strict mode, from just after the opening quote:
    the decoded string and what follows the closing quote. *)
Fixpoint scanstring (s : pystr) : option (pystr * pystr) :=
  match s with
  | [] => None
  | c :: s' =>
      if c =? 34 then Some ([], s')
      else if c =? 92 then
        match s' with
        | [] => None
        | e :: s'' =>
            if e =? 117 then
              match s'' with
              | h1 :: h2 :: h3 :: h4 :: t =>
                  match hex4 h1 h2 h3 h4 with
                  | None => None
                  | Some u =>
                      let single :=
                        match scanstring t with
                        | Some (str, rest) => Some (u :: str, rest)
                        | None => None
                        end in
                      if is_high_surrogate u then
                        match t with
                        | 92 :: 117 :: g1 :: g2 :: g3 :: g4 :: t' =>
                            match hex4 g1 g2 g3 g4 with
                            | Some u2 =>
                                if is_low_surrogate u2 then
                                  match scanstring t' with
                                  | Some (str, rest) =>
                                      Some (65536 + (u - 55296) * 1024 + (u2 - 56320) :: str, rest)
                                  | None => None
                                  end
                                else single
                            | None => single
                            end
                        | _ => single
                        end
                      else single
                  end
              | _ => None
              end
            else
              match unescape e with
              | None => None
              | Some c' =>
                  match scanstring s'' with
                  | Some (str, rest) => Some (c' :: str, rest)
                  | None => None
                  end
              end
        end
      else if c <? 32 then None
      else
        match scanstring s' with
        | Some (str, rest) => Some (c :: str, rest)
        | None => None
        end
  end.

(** [NUMBER_RE]: an optional minus sign and an integer part (a lone 0, or
    a non-zero digit and more digits), then optionally a point with one
    digit or more, then optionally e or E, a sign and one digit or more. *)
Definition scan_int_part (s : pystr) : option (N * pystr) :=
  match s with
  | [] => None
  | c :: s' =>
      if c =? 48 then Some (0, s')
      else match span_digits s with
           | ([], _) => None
           | (ds, rest) => Some (N_of_digits ds, rest)
           end
  end.

Definition scan_frac (s : pystr) : option (digit * list digit * pystr) :=
  match s with
  | 46 :: s' =>
      match span_digits s' with
      | (d :: ds, rest) => Some (d, ds, rest)
      | ([], _) => None
      end
  | _ => None
  end.

Definition scan_exp (s : pystr) : option (bool * N * pystr) :=
  match s with
  | [] => None
  | c :: s' =>
      if (c =? 101) || (c =? 69) then
        let (eneg, t) :=
          match s' with
          | 45 :: t => (true, t)
          | 43 :: t => (false, t)
          | _ => (false, s')
          end in
        match span_digits t with
        | ([], _) => None
        | (ds, rest) => Some (eneg, N_of_digits ds, rest)
        end
      else None
  end.

(** A match of [NUMBER_RE]: a [float] when there is a fraction or an
    exponent, an [int] otherwise. *)
Definition split_sign (s : pystr) : bool * pystr :=
  match s with 45 :: t => (true, t) | _ => (false, s) end.

Definition scan_number (s : pystr) : option (json * pystr) :=
  let (neg, s1) := split_sign s in
  match scan_int_part s1 with
  | None => None
  | Some (ip, s2) =>
      match scan_frac s2 with
      | Some (f0, fs, s3) =>
          match scan_exp s3 with
          | Some (eneg, eabs, s4) => Some (JFloat (FSci neg ip (f0 :: fs) eneg eabs), s4)
          | None => Some (JFloat (FFix neg ip f0 fs), s3)
          end
      | None =>
          match scan_exp s2 with
          | Some (eneg, eabs, s4) => Some (JFloat (FSci neg ip [] eneg eabs), s4)
          | None => Some (JInt (if neg then - Z.of_N ip else Z.of_N ip), s2)
          end
      end
  end.

(** [s.startswith(p)], with the rest of [s]. *)
Fixpoint strip_prefix (p s : pystr) : option pystr :=
  match p, s with
  | [], _ => Some s
  | a :: p', b :: s' => if a =? b then strip_prefix p' s' else None
  | _ :: _, [] => None
  end.

Definition scan_word (w : string) (v : json) (s : pystr) : option (json * pystr) :=
  match strip_prefix (py w) s with
  | Some rest => Some (v, rest)
  | None => None
  end.

(** The constants and numbers of [scan_once], tried in its order. *)
Definition scan_atom (s : pystr) : option (json * pystr) :=
  match s with
  | [] => None
  | c :: _ =>
      if c =? 110 then scan_word "null" JNull s
      else if c =? 116 then scan_word "true" (JBool true) s
      else if c =? 102 then scan_word "false" (JBool false) s
      else match scan_number s with
           | Some r => Some r
           | None =>
               if c =? 78 then scan_word "NaN" (JFloat FNaN) s
               else if c =? 73 then scan_word "Infinity" (JFloat (FInf false)) s
               else if c =? 45 then scan_word "-Infinity" (JFloat (FInf true)) s
               else None
           end
  end.

(** [s] starts with the character [c]: what follows it. *)
Definition head_is (c : N) (s : pystr) : option pystr :=
  match s with
  | x :: t => if x =? c then Some t else None
  | [] => None
  end.

(** [scan_once], [JSONObject] and [JSONArray]; [fuel] bounds the depth of
    the calls, and [loads] gives enough of it. *)
Fixpoint scan_once (fuel : nat) (s : pystr) : option (json * pystr) :=
  match fuel with
  | O => None
  | S fuel =>
      match s with
      | [] => None
      | c :: s' =>
          if c =? 34 then
            match scanstring s' with
            | Some (str, rest) => Some (JStr str, rest)
            | None => None
            end
          else if c =? 123 then
            match head_is 125 (skip_ws s') with
            | Some rest => Some (JDict [], rest)
            | None => scan_pairs fuel [] (skip_ws s')
            end
          else if c =? 91 then
            match head_is 93 (skip_ws s') with
            | Some rest => Some (JList [], rest)
            | None => scan_items fuel [] (skip_ws s')
            end
          else scan_atom s
      end
  end
with scan_pairs (fuel : nat) (acc : list (pystr * json)) (s : pystr)
  : option (json * pystr) :=
  match fuel with
  | O => None
  | S fuel =>
      match head_is 34 s with
      | None => None
      | Some s1 =>
          match scanstring s1 with
          | None => None
          | Some (key, s2) =>
              match head_is 58 (skip_ws s2) with
              | None => None
              | Some s3 =>
                  match scan_once fuel (skip_ws s3) with
                  | None => None
                  | Some (v, s4) =>
                      let acc := dict_set key v acc in
                      match head_is 125 (skip_ws s4) with
                      | Some rest => Some (JDict acc, rest)
                      | None =>
                          match head_is 44 (skip_ws s4) with
                          | Some s5 => scan_pairs fuel acc (skip_ws s5)
                          | None => None
                          end
                      end
                  end
              end
          end
      end
  end
with scan_items (fuel : nat) (acc : list json) (s : pystr)
  : option (json * pystr) :=
  match fuel with
  | O => None
  | S fuel =>
      match scan_once fuel s with
      | None => None
      | Some (v, s1) =>
          match head_is 93 (skip_ws s1) with
          | Some rest => Some (JList (acc ++ [v]), rest)
          | None =>
              match head_is 44 (skip_ws s1) with
              | Some s2 => scan_items fuel (acc ++ [v]) (skip_ws s2)
              | None => None
              end
          end
      end
  end.

(** [json.loads(s)]: one value, with nothing but whitespace around it. *)
Definition loads (s : pystr) : option json :=
  match scan_once (S (length s)) (skip_ws s) with
  | Some (v, rest) => match skip_ws rest with [] => Some v | _ => None end
  | None => None
  end.

(** What may follow a value inside a document: nothing, a comma, or a
    closing bracket or brace. *)
Definition stops (s : pystr) : Prop :=
  match s with [] => True | c :: _ => c = 44 \/ c = 93 \/ c = 125 end.

Definition no_digit_head (s : pystr) : Prop :=
  match s with [] => True | c :: _ => char_digit c = None end.

(** How a value starts: with no whitespace and no closing bracket. *)
Definition value_head (s : pystr) : Prop :=
  match s with
  | c :: _ => is_json_ws c = false /\ c <> 93 /\ c <> 125
  | [] => False
  end.

(** How a number starts: with a digit or a minus sign. *)
Definition number_head (s : pystr) : Prop :=
  match s with
  | c :: _ => c = 45 \/ exists d, c = digit_char d
  | [] => False
  end.

(** The depth of calls [scan_once] needs for a value. *)
Fixpoint json_size (v : json) : nat :=
  match v with
  | JList l => S (list_sum (map (fun x => S (json_size x)) l))
  | JDict d => S (list_sum (map (fun kv => S (json_size (snd kv))) d))
  | _ => 1
  end.

(** The keys of every dict are distinct, as they are in Python. *)
Fixpoint json_wf (v : json) : Prop :=
  match v with
  | JList l => fold_right (fun x acc => json_wf x /\ acc) True l
  | JDict d =>
      NoDup (map fst d) /\ fold_right (fun kv acc => json_wf (snd kv) /\ acc) True d
  | _ => True
  end.

(** [json_wf], as a test. *)
Fixpoint json_wfb (v : json) : bool :=
  match v with
  | JList l => forallb json_wfb l
  | JDict d =>
      bool_decide (NoDup (map fst d)) && forallb (fun kv => json_wfb (snd kv)) d
  | _ => true
  end.

(** No character of [s] is a control character. *)
Definition printable (s : pystr) : bool := forallb (fun c => 32 <=? c) s.

(** Every string of [v], keys included, passes the test [ok]. *)
Fixpoint json_strings_ok (ok : pystr -> bool) (v : json) : bool :=
  match v with
  | JStr s => ok s
  | JList l => forallb (json_strings_ok ok) l
  | JDict d => forallb (fun kv => ok (fst kv) && json_strings_ok ok (snd kv)) d
  | _ => true
  end.

(** One member of a dict, as [dumps] prints it. *)
Definition dumps_member (kv : pystr * json) : pystr :=
  encode_basestring (fst kv) ++ 58 :: 32 :: dumps (snd kv).

(** [v] is read back from what [dumps] prints for it, whatever follows. *)
Definition reads_back (v : json) : Prop :=
  forall fuel rest,
    json_wf v -> (json_size v <= fuel)%nat -> stops rest ->
    scan_once fuel (dumps v ++ rest) = Some (v, rest).

(** [v[k]] on a dict and [v[i]] on a list; [None] stands for the KeyError,
    IndexError or TypeError. *)
Definition get_key (k : string) (v : json) : option json :=
  match v with JDict d => dict_get (py k) d | _ => None end.

Definition get_item (i : nat) (v : json) : option json :=
  match v with JList l => l !! i | _ => None end.

(** A chain of subscripts, as in [v["body"]["input"][0]]. *)
Inductive subscript := Key (k : string) | Item (i : nat).

Fixpoint get_path (p : list subscript) (v : json) : option json :=
  match p with
  | [] => Some v
  | Key k :: p' => match get_key k v with Some w => get_path p' w | None => None end
  | Item i :: p' => match get_item i v with Some w => get_path p' w | None => None end
  end.

End Json.

Import Json.

(** * generate_jsonl.py *)
Module generate_jsonl.

(** The class [[A-Za-z0-9._-]]. *)
Definition in_class (c : N) : bool :=
  ((65 <=? c) && (c <=? 90)) || ((97 <=? c) && (c <=? 122))
  || ((48 <=? c) && (c <=? 57)) || (c =? 46) || (c =? 95) || (c =? 45).

(** [re.sub(r"[^A-Za-z0-9._-]", "_", stem)] *)
Definition re_sub_unsafe (stem : pystr) : pystr :=
  map (fun c => if in_class c then c else 95) stem.

Definition safe_stem_from_url (url : pystr) : pystr :=
  let stem := or_else (final (split 47 (first (split 63 (strip url)))))
                      (py "image") in
  let stem := re_sub_unsafe stem in
  take 60 stem.

Definition DIMENSIONS : list pystr :=
  [py "aesthetics"; py "level_of_detail"; py "utility_for_designer";
   py "orderliness"; py "complexity"; py "overall"].

(** The adjacent literals of [PROMPT] are concatenated with nothing in
    between; U+2013 and U+2014 are its dashes. *)
Definition PROMPT : pystr :=
  py "Rate screenshots on three 1" ++ [8211]
  ++ py "10 integer scales:1. Aesthetic " ++ [8212]
  ++ py " visual quality based on layout, color, typography, and polish.Avoid high scores for flat or noisy designs.2. Level of Detail "
  ++ [8212]
  ++ py " richness and structure of components, organization. Be forgiving with sparse drafts; lightly penalize repetition.3. Utility for Designers "
  ++ [8212]
  ++ py " usefulness for design inspiration, based on aesthetic+detail but adjusted for clarity and layout richness.4. Orderliness "
  ++ [8212]
  ++ py " how orderly the UI appears.5. Complexity - how visually complex the UI appears in the screenshot6. Overall - rate the website design on a 10 point scaleReturn only numbers (no explanations).".

Definition build_json_schema (dimensions : list pystr) : json :=
  let props :=
    fold_left
      (fun props d =>
         dict_set d (JDict [(py "type", JStr (py "integer"));
                            (py "minimum", JInt 1); (py "maximum", JInt 10)]) props)
      dimensions [] in
  JDict [(py "type", JStr (py "object"));
         (py "additionalProperties", JBool false);
         (py "properties", JDict props);
         (py "required", JList (map (fun kv => JStr (fst kv)) props))].

(** The [custom_id] line of [make_request_line]. *)
Definition custom_id (idx : Z) (url : pystr) : pystr :=
  py "ui-" ++ format_05d idx ++ py "-" ++ safe_stem_from_url url.

Definition make_request_line (idx : Z) (url model : pystr) (temperature : pyfloat) : json :=
  let custom_id := custom_id idx url in
  let body :=
    JDict
      [(py "model", JStr model);
       (py "input",
        JList
          [JDict
             [(py "role", JStr (py "user"));
              (py "content",
               JList
                 [JDict [(py "type", JStr (py "input_text")); (py "text", JStr PROMPT)];
                  JDict [(py "type", JStr (py "input_image"));
                         (py "image_url", JStr (strip url))]])]]);
       (py "text",
        JDict
          [(py "format",
            JDict [(py "type", JStr (py "json_schema"));
                   (py "name", JStr (py "UIRatings"));
                   (py "strict", JBool true);
                   (py "schema", build_json_schema DIMENSIONS)])]);
       (py "temperature", JFloat temperature);
       (py "max_output_tokens", JInt 400)] in
  JDict [(py "custom_id", JStr custom_id); (py "method", JStr (py "POST"));
         (py "url", JStr (py "/v1/responses")); (py "body", body)].

(** The files of the run: the text each path holds.  A file opened in
    text mode with [encoding="utf-8"] is modelled by its text; directories
    are not modelled.  The URL file is held as the text [read_text]
    decodes: a file that cannot be decoded, on which [read_text] raises
    UnicodeDecodeError before anything is written, is not among these
    files. *)
Abbreviation files := (gmap pystr pystr).

(** The command line, after [argparse]. *)
Record args := {
  urls : pystr;
  out : pystr;
  model : pystr;
  temperature : pyfloat;
}.

(** The list comprehension of [main]: the stripped, non-blank lines. *)
Definition read_urls (text : pystr) : list pystr :=
  map strip (filter (fun ln => strip ln <> []) (splitlines text)).

(** The text of one line of the artifact. *)
Definition line_text (a : args) (iu : Z * pystr) : pystr :=
  dumps (make_request_line (fst iu) (snd iu) (model a) (temperature a)) ++ [10].

(** The [for] loop of [main] on the open file [f] (the text written so
    far): a line that cannot be encoded raises in [f.write], and nothing
    of it is written. *)
Fixpoint write_lines (a : args) (items : list (Z * pystr)) (f : pystr)
  : option exn * pystr :=
  match items with
  | [] => (None, f)
  | (i, url) :: items' =>
      let line := make_request_line i url (model a) (temperature a) in
      let text := dumps line ++ [10] in
      if utf8_encodable text then write_lines a items' (f ++ text)
      else (Some UnicodeEncodeError, f)
  end.

(** [main]: the exception raised, if any, and the files it leaves.
    [out_path.open("w")] truncates the file, and leaving the [with] block
    closes it, also when the block raises.  The final [print] is left
    out. *)
Definition main (a : args) (fs : files) : option exn * files :=
  match fs !! urls a with
  | None => (Some (FileNotFoundError (urls a)), fs)
  | Some text =>
      let urls := read_urls text in
      match urls with
      | [] => (Some (SystemExit (py "No URLs found.")), fs)
      | _ =>
          let (e, f) := write_lines a (enumerate 1 urls) [] in
          (e, <[out a := f]> fs)
      end
  end.

(** The requests of a run, in order: what the loop of [main] builds from
    [enumerate(urls, start=1)]. *)
Definition requests (a : args) (urls : list pystr) : list json :=
  map (fun iu => make_request_line (fst iu) (snd iu) (model a) (temperature a))
      (enumerate 1 urls).

(** The identifiers of a run, position by position. *)
Definition custom_ids (start : Z) (urls : list pystr) : list pystr :=
  map (fun iu => custom_id (fst iu) (snd iu)) (enumerate start urls).

(** A command line to run examples with. *)
Definition sample_args : args :=
  {| urls := py "urls.txt"; out := py "batch_input.jsonl";
     model := py "gpt-4o"; temperature := FFix false 0 d2 [] |}.

(** An example: a model name with a lone surrogate, as [sys.argv] holds
    for an argument that is not valid UTF-8, and an output path that
    already holds an artifact. *)
Definition bad_model_args : args :=
  {| urls := py "urls.txt"; out := py "batch_input.jsonl";
     model := py "gpt-" ++ [56448]; temperature := FFix false 0 d2 [] |}.

Definition sample_files : files :=
  {[ py "urls.txt" := py "http://x/a.png" ++ [10] ++ py " http://x/b.png?v=2 " ++ [10];
     py "batch_input.jsonl" := py "an older artifact" ++ [10] ]}.

(** The request a line of the artifact carries: its [custom_id] and its
    target, the [image_url] of the second content part. *)
Definition line_custom_id (v : json) : option json := get_path [Key "custom_id"] v.

Definition line_target (v : json) : option json :=
  get_path [Key "body"; Key "input"; Item 0; Key "content"; Item 1; Key "image_url"] v.

(** The lines of a text file: the pieces that end in LF. *)
Fixpoint file_lines (s : pystr) : list pystr :=
  match s with
  | [] => []
  | c :: s' =>
      if c =? 10 then [] :: file_lines s'
      else match file_lines s' with
           | l :: ls => (c :: l) :: ls
           | [] => [[c]]
           end
  end.

(** The schema of one dimension. *)
Definition integer_schema : json :=
  JDict [(py "type", JStr (py "integer")); (py "minimum", JInt 1); (py "maximum", JInt 10)].

End generate_jsonl.

(** * run_batch.py *)
Module run_batch.

(** The contents of a file: bytes, as numbers below 256. *)
Abbreviation bytes := (list N).
Abbreviation files := (gmap pystr bytes).

Definition TERMINAL : list pystr :=
  [py "completed"; py "failed"; py "expired"; py "cancelled"].

Record RequestCounts := { total : Z; completed : Z; failed : Z }.

(** A snapshot of the batch, as [client.batches.retrieve] returns it.
    The attribute [status] is absent ([None]), or it holds [None]
    ([Some None]) or a string; of the other fields, which the code reads
    with [None] as the default, one that is [None] is absent or holds
    [None]. *)
Record Batch := {
  status : option (option pystr);
  request_counts : option RequestCounts;
  output_file_id : option pystr;
  error_file_id : option pystr;
}.

(** The remote service.  It answers every call; [batches_retrieve id n] is
    its answer to the retrieve number [n] of the run, counted from 0. *)
Record service := {
  files_create : bytes -> pystr;
  batches_create : pystr -> pystr -> pystr;
  batches_retrieve : pystr -> nat -> Batch;
  files_content : pystr -> bytes;
}.

(** What a run does, in order. *)
Inductive event :=
| Print (line : pystr)
| FilesCreate (data : bytes)
| BatchesCreate (input_file_id window : pystr)
| Retrieve (batch_id : pystr)
| Sleep (secs : Z)
| FilesContent (file_id : pystr)
| WriteBytes (path : pystr).

(** How a run ends; [OutOfFuel] is a loop that is still running. *)
Inductive run (A : Type) :=
| Returns (a : A)
| Raises (e : exn)
| OutOfFuel.
Arguments Returns {A} a.
Arguments Raises {A} e.
Arguments OutOfFuel {A}.

(** The command line, after [argparse]; [out_path] and [err_path] are the
    paths of lines 57 and 58. *)
Record args := {
  input : pystr;
  window : pystr;
  poll : Z;
  resume : option pystr;
  out_path : pystr;
  err_path : pystr;
}.

(** Truth value of an optional string: [None] and the empty string are
    falsy. *)
Definition truthy (o : option pystr) : option pystr :=
  match o with
  | Some (c :: s) => Some (c :: s)
  | _ => None
  end.

(** [getattr(b, "status", "unknown")]: a string, or [None]. *)
Definition status_of (b : Batch) : option pystr :=
  default (Some (py "unknown")) (status b).

(** [str(v)] for a value that is a string or [None]. *)
Definition py_str (v : option pystr) : pystr := default (py "None") v.

(** [status in TERMINAL] *)
Definition is_terminal (st : option pystr) : bool :=
  match st with
  | Some s => bool_decide (s ∈ TERMINAL)
  | None => false
  end.

(** The progress line of one query. *)
Definition progress (b : Batch) : pystr :=
  match request_counts b with
  | Some counts =>
      py "[" ++ py_str (status_of b) ++ py "] total=" ++ str_of_Z (total counts)
      ++ py " completed=" ++ str_of_Z (completed counts)
      ++ py " failed=" ++ str_of_Z (failed counts)
  | None => py "[" ++ py_str (status_of b) ++ py "]"
  end.

(** [time.sleep(secs)] raises ValueError on a negative length. *)
Definition sleep_error : exn := ValueError (py "sleep length must be non-negative").

(** [time.sleep(secs)] for an [int]: what it raises, if anything.  The
    length is first converted to nanoseconds in 64 bits, which raises
    OverflowError from [9223372037] seconds on, whatever the sign; only
    then a negative length raises ValueError. *)
Definition sleep_limit : Z := 9223372037.

Definition time_sleep (secs : Z) : option exn :=
  if (sleep_limit <=? Z.abs secs)%Z then Some OverflowError
  else if (secs <? 0)%Z then Some sleep_error
  else None.

(** The [while True] loop of [main], from the retrieve number [n] on.
    One unit of [fuel] is one iteration. *)
Fixpoint poll_loop (fuel : nat) (svc : service) (batch_id : pystr) (secs : Z) (n : nat)
  : list event * run Batch :=
  match fuel with
  | O => ([], OutOfFuel)
  | S fuel =>
      let b := batches_retrieve svc batch_id n in
      let status := status_of b in
      if is_terminal status then
        ([Retrieve batch_id; Print (progress b)], Returns b)
      else
        match time_sleep secs with
        | Some e => ([Retrieve batch_id; Print (progress b)], Raises e)
        | None =>
            let (evs, r) := poll_loop fuel svc batch_id secs (S n) in
            (Retrieve batch_id :: Print (progress b) :: Sleep secs :: evs, r)
        end
  end.

(** One iteration that goes round: the query, the progress line, the
    wait. *)
Definition iteration (svc : service) (batch_id : pystr) (secs : Z) (k : nat)
  : list event :=
  [Retrieve batch_id; Print (progress (batches_retrieve svc batch_id k)); Sleep secs].

(** The last iteration: the query and the progress line. *)
Definition last_iteration (svc : service) (batch_id : pystr) (k : nat) : list event :=
  [Retrieve batch_id; Print (progress (batches_retrieve svc batch_id k))].

(** The runs of the loop as a relation: [poll_run svc id secs n evs r] when
    the loop, entered at the retrieve number [n], does [evs] and ends as
    [r].  A run that is cut short ends as [OutOfFuel]. *)
Inductive poll_run (svc : service) (batch_id : pystr) (secs : Z)
  : nat -> list event -> run Batch -> Prop :=
| poll_cut n :
    poll_run svc batch_id secs n [] OutOfFuel
| poll_break n :
    is_terminal (status_of (batches_retrieve svc batch_id n)) = true ->
    poll_run svc batch_id secs n (last_iteration svc batch_id n)
             (Returns (batches_retrieve svc batch_id n))
| poll_bad_sleep n e :
    is_terminal (status_of (batches_retrieve svc batch_id n)) = false ->
    time_sleep secs = Some e ->
    poll_run svc batch_id secs n (last_iteration svc batch_id n) (Raises e)
| poll_again n evs r :
    is_terminal (status_of (batches_retrieve svc batch_id n)) = false ->
    time_sleep secs = None ->
    poll_run svc batch_id secs (S n) evs r ->
    poll_run svc batch_id secs n (iteration svc batch_id secs n ++ evs) r.

Definition is_sleep (e : event) : bool :=
  match e with Sleep _ => true | _ => false end.



(** A stub of the service that ticks through a canned sequence of
    statuses, one per retrieve, and stays on [after] once it is through;
    its batches report [counts], and [output] names the output file, if
    any, whose contents are [data]. *)
Definition stub_service (statuses : list pystr) (after : pystr)
    (counts : option RequestCounts) (output : option pystr) (data : bytes) : service :=
  {| files_create := fun _ => py "file-1";
     batches_create := fun _ _ => py "batch-1";
     batches_retrieve := fun _ n =>
       {| status := Some (Some (default after (statuses !! n)));
          request_counts := counts;
          output_file_id := output;
          error_file_id := None |};
     files_content := fun _ => data |}.

(** [save_file], where the path can be opened for writing; [save_file_on]
    below is [save_file] with the write that fails. *)
Definition save_file (svc : service) (file_id path : pystr) (fs : files)
  : list event * files :=
  let data := files_content svc file_id in
  ([FilesContent file_id; WriteBytes path], <[path := data]> fs).

(** The bytes are well-formed UTF-8 (what the strict decoder accepts). *)
Fixpoint utf8_valid (s : bytes) : bool :=
  let cont c := (128 <=? c) && (c <=? 191) in
  match s with
  | [] => true
  | b0 :: s1 =>
      if b0 <? 128 then utf8_valid s1
      else if (194 <=? b0) && (b0 <=? 223) then
        match s1 with
        | b1 :: s2 => cont b1 && utf8_valid s2
        | _ => false
        end
      else if (224 <=? b0) && (b0 <=? 239) then
        match s1 with
        | b1 :: b2 :: s3 =>
            (if b0 =? 224 then (160 <=? b1) && (b1 <=? 191)
             else if b0 =? 237 then (128 <=? b1) && (b1 <=? 159)
             else cont b1)
            && cont b2 && utf8_valid s3
        | _ => false
        end
      else if (240 <=? b0) && (b0 <=? 244) then
        match s1 with
        | b1 :: b2 :: b3 :: s4 =>
            (if b0 =? 240 then (144 <=? b1) && (b1 <=? 191)
             else if b0 =? 244 then (128 <=? b1) && (b1 <=? 143)
             else cont b1)
            && cont b2 && cont b3 && utf8_valid s4
        | _ => false
        end
      else false
  end.

(** The number of lines a text-mode iteration over the file yields: a
    line ends at LF, at CR or at CR LF, and text after the last of them is
    one more line. *)
Fixpoint count_lines (s : bytes) : nat :=
  match s with
  | [] => 0
  | 13 :: 10 :: s' => S (count_lines s')
  | c :: s' =>
      if (c =? 10) || (c =? 13) then S (count_lines s')
      else match s' with
           | [] => 1
           | _ => count_lines s'
           end
  end.

(** [sum(1 for _ in open(path, "r", encoding="utf-8"))] *)
Definition n_lines (data : bytes) : exn + nat :=
  if utf8_valid data then inr (count_lines data) else inl UnicodeDecodeError.

(** Lines 73 to 85 of [main]: the downloads and the last message. *)
Definition download_results (svc : service) (a : args) (batch_id : pystr) (b : Batch)
    (fs : files) : list event * option exn * files :=
  let '(evs1, e1, fs1) :=
    match truthy (output_file_id b) with
    | Some file_id =>
        let (evs, fs') := save_file svc file_id (out_path a) fs in
        let evs :=
          Print (py "Downloading output to " ++ out_path a ++ [32; 8230]) :: evs in
        match n_lines (default [] (fs' !! out_path a)) with
        | inr n =>
            (evs ++ [Print (py "Saved " ++ str_of_N (N.of_nat n) ++ py " lines "
                            ++ [8594; 32] ++ out_path a)],
             None, fs')
        | inl e => (evs, Some e, fs')
        end
    | None => ([], None, fs)
    end in
  match e1 with
  | Some e => (evs1, Some e, fs1)
  | None =>
      let (evs2, fs2) :=
        match truthy (error_file_id b) with
        | Some file_id =>
            let (evs, fs') := save_file svc file_id (err_path a) fs1 in
            (Print (py "Downloading errors to " ++ err_path a ++ [32; 8230]) :: evs
               ++ [Print (py "Saved errors " ++ [8594; 32] ++ err_path a)],
             fs')
        | None => ([], fs1)
        end in
      match status b with
      | Some st =>
          (evs1 ++ evs2
             ++ [Print (py "Batch " ++ batch_id ++ py " finished with status: "
                        ++ py_str st)],
           None, fs2)
      | None => (evs1 ++ evs2, Some (AttributeError (py "status")), fs2)
      end
  end.


(** [main], from line 35 on: the command line is parsed and the client is
    built; the two paths can be opened for writing.  [main_on] below is
    [main] from line 33 on, on a host that decides the key and the
    writes. *)
Definition main (svc : service) (a : args) (fuel : nat) (fs : files)
  : list event * run unit * files :=
  let start : list event * run (pystr * nat) :=
    match truthy (resume a) with
    | None =>
        match fs !! input a with
        | None => ([], Raises (SystemExit (py "Input file not found: " ++ input a)))
        | Some data =>
            let file_id := files_create svc data in
            let batch_id := batches_create svc file_id (window a) in
            ([Print (py "Uploading " ++ input a ++ [32; 8230]);
              FilesCreate data;
              Print (py "  file_id: " ++ file_id);
              Print (py "Creating batch (window=" ++ window a ++ py ") " ++ [8230]);
              BatchesCreate file_id (window a)],
             Returns (batch_id, O))
        end
    | Some batch_id =>
        ([Print (py "Resuming batch " ++ batch_id ++ [32; 8230]); Retrieve batch_id],
         Returns (batch_id, 1%nat))
    end in
  match start with
  | (evs0, Returns (batch_id, n)) =>
      match poll_loop fuel svc batch_id (poll a) n with
      | (evs1, Returns b) =>
          let '(evs2, e, fs') := download_results svc a batch_id b fs in
          (evs0 ++ evs1 ++ evs2,
           match e with Some e => Raises e | None => Returns () end, fs')
      | (evs1, Raises e) => (evs0 ++ evs1, Raises e, fs)
      | (evs1, OutOfFuel) => (evs0 ++ evs1, OutOfFuel, fs)
      end
  | (evs0, Raises e) => (evs0, Raises e, fs)
  | (evs0, OutOfFuel) => (evs0, OutOfFuel, fs)
  end.

(** An example: an input of two requests, and an output artifact that
    answers the first of them only. *)
Definition id_line (id : string) : bytes :=
  dumps (JDict [(py "custom_id", JStr (py id))]) ++ [10].

Definition two_requests : bytes := id_line "ui-00001-a.png" ++ id_line "ui-00002-a.png".
Definition one_result : bytes := id_line "ui-00001-a.png".

Definition upload_args : args :=
  {| input := py "batch_input.jsonl"; window := py "24h"; poll := 15;
     resume := None;
     out_path := py "batch_input_output.jsonl";
     err_path := py "batch_input_errors.jsonl" |}.

Definition one_result_service : service :=
  stub_service [] (py "completed")
    (Some {| total := 2; completed := 1; failed := 0 |})
    (Some (py "file-out")) one_result.

(** A command line to run examples with: a resumed batch. *)
Definition sample_args : args :=
  {| input := py "batch_input.jsonl"; window := py "24h"; poll := 15;
     resume := Some (py "batch-1");
     out_path := py "batch_input_output.jsonl";
     err_path := py "batch_input_errors.jsonl" |}.


(** Lines 36 to 53 of [main]: the upload and the creation of the batch,
    or the resumption of one; the batch to poll and the number of
    retrieves made so far. *)
Definition start_phase (svc : service) (a : args) (fs : files)
  : list event * run (pystr * nat) :=
  match truthy (resume a) with
  | None =>
      match fs !! input a with
      | None => ([], Raises (SystemExit (py "Input file not found: " ++ input a)))
      | Some data =>
          let file_id := files_create svc data in
          let batch_id := batches_create svc file_id (window a) in
          ([Print (py "Uploading " ++ input a ++ [32; 8230]);
            FilesCreate data;
            Print (py "  file_id: " ++ file_id);
            Print (py "Creating batch (window=" ++ window a ++ py ") " ++ [8230]);
            BatchesCreate file_id (window a)],
           Returns (batch_id, O))
      end
  | Some batch_id =>
      ([Print (py "Resuming batch " ++ batch_id ++ [32; 8230]); Retrieve batch_id],
       Returns (batch_id, 1%nat))
  end.



(** Examples: a resumed batch polled with a negative interval, on a
    service whose batch is still in progress. *)
Definition negative_poll_args : args :=
  {| input := py "batch_input.jsonl"; window := py "24h"; poll := -1;
     resume := Some (py "batch-1");
     out_path := py "batch_input_output.jsonl";
     err_path := py "batch_input_errors.jsonl" |}.

Definition slow_service : service :=
  stub_service [py "validating"; py "in_progress"] (py "completed") None None [].





(** The machine the script runs on: the key that
    [os.getenv("OPENAI_API_KEY")] finds, and what opening a path for
    writing raises, if anything (FileNotFoundError when the directory of
    the path does not exist: the script makes no directory). *)
Record host := {
  api_key : option pystr;
  open_error : pystr -> option exn;
}.

(** Line 33, [OpenAI(api_key=os.getenv("OPENAI_API_KEY"))]: the
    constructor raises OpenAIError when it is given no key and finds
    none. *)
Definition client_error (h : host) : option exn :=
  match api_key h with
  | None => Some OpenAIError
  | Some _ => None
  end.

(** [save_file] on a host: the contents are fetched first; when the path
    cannot be opened, [write_bytes] raises and nothing is written. *)
Definition save_file_on (h : host) (svc : service) (file_id path : pystr) (fs : files)
  : list event * option exn * files :=
  match open_error h path with
  | Some e => ([FilesContent file_id], Some e, fs)
  | None => let (evs, fs') := save_file svc file_id path fs in (evs, None, fs')
  end.

(** Lines 73 to 85 of [main] on a host. *)
Definition download_results_on (h : host) (svc : service) (a : args) (batch_id : pystr)
    (b : Batch) (fs : files) : list event * option exn * files :=
  let '(evs1, e1, fs1) :=
    match truthy (output_file_id b) with
    | Some file_id =>
        let '(evs, e, fs') := save_file_on h svc file_id (out_path a) fs in
        let evs :=
          Print (py "Downloading output to " ++ out_path a ++ [32; 8230]) :: evs in
        match e with
        | Some e => (evs, Some e, fs')
        | None =>
            match n_lines (default [] (fs' !! out_path a)) with
            | inr n =>
                (evs ++ [Print (py "Saved " ++ str_of_N (N.of_nat n) ++ py " lines "
                                ++ [8594; 32] ++ out_path a)],
                 None, fs')
            | inl e => (evs, Some e, fs')
            end
        end
    | None => ([], None, fs)
    end in
  match e1 with
  | Some e => (evs1, Some e, fs1)
  | None =>
      let '(evs2, e2, fs2) :=
        match truthy (error_file_id b) with
        | Some file_id =>
            let '(evs, e, fs') := save_file_on h svc file_id (err_path a) fs1 in
            let evs :=
              Print (py "Downloading errors to " ++ err_path a ++ [32; 8230]) :: evs in
            match e with
            | Some e => (evs, Some e, fs')
            | None =>
                (evs ++ [Print (py "Saved errors " ++ [8594; 32] ++ err_path a)],
                 None, fs')
            end
        | None => ([], None, fs1)
        end in
      match e2 with
      | Some e => (evs1 ++ evs2, Some e, fs2)
      | None =>
          match status b with
          | Some st =>
              (evs1 ++ evs2
                 ++ [Print (py "Batch " ++ batch_id ++ py " finished with status: "
                            ++ py_str st)],
               None, fs2)
          | None => (evs1 ++ evs2, Some (AttributeError (py "status")), fs2)
          end
      end
  end.

(** [main] from line 33 on, on a host: the client is built before the
    input is looked at. *)
Definition main_on (h : host) (svc : service) (a : args) (fuel : nat) (fs : files)
  : list event * run unit * files :=
  match client_error h with
  | Some e => ([], Raises e, fs)
  | None =>
      match start_phase svc a fs with
      | (evs0, Returns (batch_id, n)) =>
          match poll_loop fuel svc batch_id (poll a) n with
          | (evs1, Returns b) =>
              let '(evs2, e, fs') := download_results_on h svc a batch_id b fs in
              (evs0 ++ evs1 ++ evs2,
               match e with Some e => Raises e | None => Returns () end, fs')
          | (evs1, Raises e) => (evs0 ++ evs1, Raises e, fs)
          | (evs1, OutOfFuel) => (evs0 ++ evs1, OutOfFuel, fs)
          end
      | (evs0, Raises e) => (evs0, Raises e, fs)
      | (evs0, OutOfFuel) => (evs0, OutOfFuel, fs)
      end
  end.

(** Hosts to run examples on: one with a key where every path can be
    written, one without a key, one where no directory exists. *)
Definition ready_host : host :=
  {| api_key := Some (py "sk-example"); open_error := fun _ => None |}.


Definition no_directory_host : host :=
  {| api_key := Some (py "sk-example"); open_error := fun p => Some (FileNotFoundError p) |}.

End run_batch.

(** * The slug, in the words of the specification

    These definitions follow the text of the specification, not the code:
    they are what the code is compared with. *)
Module Spec.

(** Everything before the first occurrence of [sep]. *)
Fixpoint before_first (sep : N) (s : pystr) : pystr :=
  match s with
  | [] => []
  | c :: s' => if c =? sep then [] else c :: before_first sep s'
  end.

(** Everything after the last occurrence of [sep]. *)
Definition after_last (sep : N) (s : pystr) : pystr :=
  reverse (before_first sep (reverse s)).

(** "strip query parameters" *)
Definition strip_query (target : pystr) : pystr := before_first 63 target.

(** "take the trailing path segment" *)
Definition trailing_segment (target : pystr) : pystr := after_last 47 target.

(** The characters of [[A-Za-z0-9._-]], one by one. *)
Definition allowed : pystr :=
  py "ABCDEFGHIJKLMNOPQRSTUVWXYZabcdefghijklmnopqrstuvwxyz0123456789._-".

Definition is_allowed (c : N) : bool := existsb (N.eqb c) allowed.

(** "replace any character outside [[A-Za-z0-9._-]] with [_]" *)
Fixpoint sanitize (s : pystr) : pystr :=
  match s with
  | [] => []
  | c :: s' => (if is_allowed c then c else 95) :: sanitize s'
  end.

(** "truncate to a fixed maximum length" *)
Definition max_length : nat := 60.
Definition truncate (s : pystr) : pystr := take max_length s.

(** The slug as the specification words it. *)
Definition slug (target : pystr) : pystr :=
  truncate (sanitize (trailing_segment (strip_query target))).

(** The slug with the two steps the code adds: the whitespace around the
    target is dropped first, and an empty trailing segment is replaced by
    [image]. *)
Definition slug_with_fallback (target : pystr) : pystr :=
  let segment := trailing_segment (strip_query (strip target)) in
  truncate (sanitize (match segment with [] => py "image" | _ => segment end)).

(** The identifier: [ui-], the index padded with zeros, a dash, the slug. *)
Definition custom_id_of (slug : pystr -> pystr) (idx : Z) (target : pystr) : pystr :=
  py "ui-" ++ format_05d idx ++ py "-" ++ slug target.


End Spec.

(** Appends are pushed to the right, so that the head of a text shows. *)
Ltac push_app :=
  repeat (rewrite <- app_assoc || rewrite <- app_comm_cons || rewrite app_nil_l).

(** * Facts about the string library *)
Section StringFacts.

Lemma split_not_nil sep s : split sep s <> [].
Proof.
  induction s as [|c s IH]; simpl; [done|].
  destruct (c =? sep); [done|]. by destruct (split sep s).
Qed.

Lemma first_split sep s : first (split sep s) = Spec.before_first sep s.
Proof.
  unfold first. induction s as [|c s IH]; simpl; [done|].
  destruct (c =? sep); [done|].
  pose proof (split_not_nil sep s) as Hne.
  destruct (split sep s) as [|w ws]; [done|]. simpl in *. by rewrite IH.
Qed.

Lemma split_snoc sep l c :
  split sep (l ++ [c]) =
    if c =? sep then split sep l ++ [[]]
    else removelast (split sep l) ++ [List.last (split sep l) [] ++ [c]].
Proof.
  induction l as [|x l IH]; simpl.
  - by destruct (c =? sep).
  - pose proof (split_not_nil sep l) as Hne.
    destruct (x =? sep).
    + rewrite IH. destruct (c =? sep); [done|].
      destruct (split sep l) as [|w ws]; [done|]. done.
    + rewrite IH. destruct (c =? sep).
      * by destruct (split sep l).
      * destruct (split sep l) as [|w ws]; [done|].
        destruct ws as [|w' ws]; done.
Qed.

Lemma final_split sep s : final (split sep s) = Spec.after_last sep s.
Proof.
  unfold final, Spec.after_last.
  induction s as [|c s IH] using rev_ind; [done|].
  rewrite split_snoc, reverse_snoc. simpl.
  destruct (c =? sep).
  - by rewrite last_last.
  - rewrite last_last, IH. by rewrite reverse_cons.
Qed.

Lemma lstrip_clean s : clean_left (lstrip s).
Proof.
  induction s as [|c s IH]; simpl; [done|].
  destruct (isspace c) eqn:E; [done|]. simpl. done.
Qed.

Lemma lstrip_fixed s : clean_left s -> lstrip s = s.
Proof. destruct s as [|c s]; simpl; [done|]. by intros ->. Qed.

Lemma lstrip_suffix s : exists pre, s = pre ++ lstrip s.
Proof.
  induction s as [|c s [pre IH]]; simpl; [by exists []|].
  destruct (isspace c).
  - exists (c :: pre). simpl. by rewrite <- IH.
  - by exists [].
Qed.

Lemma rstrip_prefix s : exists post, s = rstrip s ++ post.
Proof.
  unfold rstrip. destruct (lstrip_suffix (reverse s)) as [pre H].
  exists (reverse pre).
  rewrite <- reverse_app, <- H. by rewrite reverse_involutive.
Qed.

Lemma rstrip_clean s : clean_left s -> clean_left (rstrip s).
Proof.
  intros H. destruct (rstrip_prefix s) as [post E].
  destruct (rstrip s) as [|c t]; [done|].
  rewrite E in H. done.
Qed.

Lemma rstrip_idemp s : rstrip (rstrip s) = rstrip s.
Proof.
  unfold rstrip. rewrite reverse_involutive.
  by rewrite (lstrip_fixed _ (lstrip_clean _)).
Qed.

Lemma strip_idemp s : strip (strip s) = strip s.
Proof.
  unfold strip.
  rewrite (lstrip_fixed (rstrip (lstrip s))).
  - apply rstrip_idemp.
  - apply rstrip_clean, lstrip_clean.
Qed.

End StringFacts.

(** * Facts about decimal numerals *)
Section DigitFacts.

Lemma char_digit_char d : char_digit (digit_char d) = Some d.
Proof. by destruct d. Qed.

Lemma digit_char_inj d e : digit_char d = digit_char e -> d = e.
Proof.
  intros H. apply (f_equal char_digit) in H.
  rewrite !char_digit_char in H. congruence.
Qed.

Lemma digit_char_not_dash d : digit_char d <> 45.
Proof. by destruct d. Qed.

Lemma digits_uint_digits u : digits_uint (uint_digits u) = u.
Proof. induction u; simpl; congruence. Qed.

Lemma N_of_str_digits n : N_of_digits (uint_digits (N.to_uint n)) = n.
Proof. unfold N_of_digits. rewrite digits_uint_digits. apply Unsigned.of_to. Qed.

Lemma N_of_digits_zeros k l : N_of_digits (replicate k d0 ++ l) = N_of_digits l.
Proof. induction k as [|k IH]; simpl; [done|]. exact IH. Qed.

Lemma length_digits_str l : length (digits_str l) = length l.
Proof. apply length_map. Qed.

Lemma zfill_digits w l :
  zfill w (digits_str l) = digits_str (replicate (w - length l) d0 ++ l).
Proof.
  unfold zfill, digits_str. rewrite length_map, map_app. f_equal.
  induction (w - length l)%nat as [|k IH]; simpl; congruence.
Qed.

(** A run of digits that a dash follows is read off in one way only. *)
Lemma digits_before_dash l1 l2 s t :
  digits_str l1 ++ 45 :: s = digits_str l2 ++ 45 :: t -> l1 = l2 /\ s = t.
Proof.
  revert l2. induction l1 as [|d l1 IH]; intros [|e l2]; simpl; intros H.
  - by injection H.
  - injection H as H _. symmetry in H. by apply digit_char_not_dash in H.
  - injection H as H _. by apply digit_char_not_dash in H.
  - injection H as Hd Hr. apply digit_char_inj in Hd as ->.
    destruct (IH _ Hr) as [-> ->]. done.
Qed.

Lemma format_05d_digits z : (0 <= z)%Z -> format_05d z = digits_str (index_digits z).
Proof.
  intros Hz. unfold format_05d, index_digits, str_of_N.
  destruct z; try lia; apply zfill_digits.
Qed.

Lemma index_digits_inj i j :
  (0 <= i)%Z -> (0 <= j)%Z -> index_digits i = index_digits j -> i = j.
Proof.
  intros Hi Hj H. apply (f_equal N_of_digits) in H. unfold index_digits in H.
  rewrite !N_of_digits_zeros, !N_of_str_digits in H. lia.
Qed.

End DigitFacts.

(** * The request identifiers *)
Section Identifiers.

Import generate_jsonl.

Lemma in_class_is_allowed c : in_class c = Spec.is_allowed c.
Proof.
  destruct (N.ltb_spec c 128) as [Hlt|Hge].
  - assert (Hall : forallb (fun n => Bool.eqb (in_class n) (Spec.is_allowed n))
                     (map N.of_nat (seq 0 128)) = true) by (vm_compute; reflexivity).
    rewrite forallb_forall in Hall.
    apply Bool.eqb_prop, Hall, in_map_iff.
    exists (N.to_nat c). split; [lia|]. apply in_seq. lia.
  - assert (Hin : in_class c = false).
    { unfold in_class. repeat (apply orb_false_intro); try apply andb_false_intro2;
        try (apply N.leb_gt; lia); apply N.eqb_neq; lia. }
    rewrite Hin. symmetry. apply not_true_is_false. intros H.
    apply existsb_exists in H as (x & Hx & Heq). apply N.eqb_eq in Heq as <-.
    assert (Hsmall : forallb (fun n => n <? 128) Spec.allowed = true)
      by (vm_compute; reflexivity).
    rewrite forallb_forall in Hsmall. apply Hsmall, N.ltb_lt in Hx. lia.
Qed.

Lemma re_sub_sanitize s : re_sub_unsafe s = Spec.sanitize s.
Proof.
  induction s as [|c s IH]; simpl; [done|].
  by rewrite IH, in_class_is_allowed.
Qed.

Lemma safe_stem_slug url : safe_stem_from_url url = Spec.slug_with_fallback url.
Proof.
  unfold safe_stem_from_url, Spec.slug_with_fallback, Spec.truncate,
    Spec.trailing_segment, Spec.strip_query, Spec.max_length, or_else.
  by rewrite first_split, final_split, re_sub_sanitize.
Qed.

Lemma custom_id_index i j u v :
  (0 <= i)%Z -> (0 <= j)%Z -> custom_id i u = custom_id j v -> i = j.
Proof.
  intros Hi Hj H. unfold custom_id in H.
  apply app_inv_head in H.
  rewrite !format_05d_digits in H by done.
  change (py "-" ++ ?s) with (45 :: s) in H.
  apply digits_before_dash in H as [H _].
  by apply index_digits_inj.
Qed.

Lemma enumerate_ge {A} start (l : list A) i x :
  (i, x) ∈ enumerate start l -> (start <= i)%Z.
Proof.
  revert start. induction l as [|y l IH]; intros start; simpl.
  - by intros ?%elem_of_nil.
  - intros [H|H]%elem_of_cons.
    + injection H as -> _. lia.
    + apply IH in H. lia.
Qed.

Lemma length_enumerate {A} start (l : list A) : length (enumerate start l) = length l.
Proof. revert start. induction l; intros; simpl; auto. Qed.

Lemma enumerate_imap {A B} (f : Z -> A -> B) start (l : list A) :
  map (fun iu => f (fst iu) (snd iu)) (enumerate start l)
  = imap (fun k x => f (start + Z.of_nat k)%Z x) l.
Proof.
  revert start. induction l as [|x l IH]; intros start; simpl; [done|].
  f_equal; [f_equal; lia|].
  rewrite IH. apply imap_ext. intros k y _. simpl. f_equal. lia.
Qed.

Lemma custom_ids_NoDup start urls : (0 <= start)%Z -> NoDup (custom_ids start urls).
Proof.
  unfold custom_ids. revert start.
  induction urls as [|u urls IH]; intros start Hs; simpl; constructor.
  - intros Hin. apply list_elem_of_fmap in Hin as ([j v] & Heq & Hin).
    simpl in Heq. pose proof (enumerate_ge _ _ _ _ Hin) as Hj.
    apply custom_id_index in Heq; lia.
  - apply IH. lia.
Qed.

Lemma request_custom_id i u m t :
  line_custom_id (make_request_line i u m t) = Some (JStr (custom_id i u)).
Proof. reflexivity. Qed.

Lemma request_target i u m t :
  line_target (make_request_line i u m t) = Some (JStr (strip u)).
Proof. reflexivity. Qed.

Lemma requests_custom_ids a urls :
  map line_custom_id (requests a urls)
  = map (fun id => Some (JStr id)) (custom_ids 1 urls).
Proof.
  unfold requests, custom_ids. rewrite !map_map. apply map_ext.
  intros [i u]. apply request_custom_id.
Qed.

End Identifiers.

(** * Properties of the identifiers *)
Section IdentifierProperties.

Import generate_jsonl.

(** C9. For every string [url], [safe_stem_from_url url] is not empty, has
    at most 60 characters, and every character of it is one of
    [[A-Za-z0-9._-]]; when the trailing path segment of [url] (after the
    query string is dropped) is empty, it is the literal [image]. *)
Theorem safe_stem_from_url_safe (url : pystr) :
  safe_stem_from_url url <> []
  /\ (length (safe_stem_from_url url) <= 60)%nat
  /\ Forall (fun c => c ∈ Spec.allowed) (safe_stem_from_url url)
  /\ (Spec.trailing_segment (Spec.strip_query (strip url)) = [] ->
      safe_stem_from_url url = py "image").
Proof.
  rewrite safe_stem_slug. unfold Spec.slug_with_fallback, Spec.truncate, Spec.max_length.
  set (seg := Spec.trailing_segment _).
  set (stem := match seg with [] => py "image" | _ => seg end).
  assert (Hne : stem <> []) by (subst stem; by destruct seg).
  repeat split.
  - destruct stem as [|c t]; [done|]. simpl. discriminate.
  - rewrite length_take. lia.
  - apply Forall_take. clear. induction stem as [|c t IH]; simpl; constructor; [|done].
    destruct (Spec.is_allowed c) eqn:E.
    + unfold Spec.is_allowed in E. apply existsb_exists in E as (x & Hx & Hc).
      apply N.eqb_eq in Hc as ->. by apply list_elem_of_In.
    + apply (bool_decide_unpack _). vm_compute. reflexivity.
  - intros Hseg. subst stem. rewrite Hseg. reflexivity.
Qed.

Lemma safe_stem_from_url_safe_witness :
  safe_stem_from_url (py "http://x/?size=2") = py "image".
Proof.
  apply (proj2 (proj2 (proj2 (safe_stem_from_url_safe (py "http://x/?size=2"))))).
  reflexivity.
Defined.

(** C5, as the specification words it, fails: a target that ends in a
    slash gets the stem [image], not the empty slug, and whitespace around
    a target is dropped, not replaced. *)
Lemma custom_id_slug_counterexample :
  custom_id 1 (py "http://x/") <> Spec.custom_id_of Spec.slug 1 (py "http://x/")
  /\ custom_id 1 (py " a.png") <> Spec.custom_id_of Spec.slug 1 (py " a.png").
Proof. split; vm_compute; discriminate. Qed.

(** C5, amended. For every index and target, the [custom_id] is [ui-], the
    index padded with zeros to five digits, a dash, and the slug of the
    target: the target without the whitespace around it, without its query
    string, reduced to its trailing path segment, or to [image] when that
    segment is empty, with every character outside [[A-Za-z0-9._-]]
    replaced by [_], cut to 60 characters.  For a target with no
    whitespace around it and a trailing segment that is not empty, this is
    the slug of the specification. *)
Theorem custom_id_slug (idx : Z) (url : pystr) :
  custom_id idx url = Spec.custom_id_of Spec.slug_with_fallback idx url
  /\ (strip url = url ->
      Spec.trailing_segment (Spec.strip_query url) <> [] ->
      custom_id idx url = Spec.custom_id_of Spec.slug idx url).
Proof.
  unfold custom_id, Spec.custom_id_of. rewrite safe_stem_slug. split; [done|].
  intros Hs Hseg. unfold Spec.slug_with_fallback, Spec.slug. rewrite Hs.
  by destruct (Spec.trailing_segment _).
Qed.

Lemma custom_id_slug_witness :
  custom_id 7 (py "http://x/shots/a b.png?v=3")
  = Spec.custom_id_of Spec.slug 7 (py "http://x/shots/a b.png?v=3").
Proof.
  apply (proj2 (custom_id_slug 7 (py "http://x/shots/a b.png?v=3"))).
  - reflexivity.
  - vm_compute. discriminate.
Defined.

(** C2, as stated, fails: the dot of [a.png] is in the class the stem
    keeps, so the identifiers do not read [a_png]. *)
Lemma duplicate_targets_counterexample :
  map line_custom_id (requests sample_args [py "http://x/a.png"; py "http://x/a.png"])
  <> [Some (JStr (py "ui-00001-a_png")); Some (JStr (py "ui-00002-a_png"))].
Proof. vm_compute. discriminate. Qed.

(** C2, amended. For the input list ["http://x/a.png", "http://x/a.png"]
    the encoder emits exactly two requests, whose identifiers are
    [ui-00001-a.png] and [ui-00002-a.png]: duplicate targets are permitted
    and get distinct identifiers from their distinct indices. *)
Theorem duplicate_targets_ids (a : args) :
  length (requests a [py "http://x/a.png"; py "http://x/a.png"]) = 2%nat
  /\ map line_custom_id (requests a [py "http://x/a.png"; py "http://x/a.png"])
     = [Some (JStr (py "ui-00001-a.png")); Some (JStr (py "ui-00002-a.png"))]
  /\ py "ui-00001-a.png" <> py "ui-00002-a.png".
Proof.
  split; [reflexivity|]. split; [|vm_compute; discriminate].
  rewrite requests_custom_ids. reflexivity.
Qed.

(** C8. The identifier at a position is a function of the index and the
    target at that position alone: it is [custom_id (k+1) u] for the target
    [u] at position [k], whatever the model and the temperature, so two
    runs on the same list give the same identifiers at every position. *)
Theorem custom_id_deterministic (a1 a2 : args) (urls : list pystr) :
  map line_custom_id (requests a1 urls)
  = imap (fun k u => Some (JStr (custom_id (1 + Z.of_nat k) u))) urls
  /\ map line_custom_id (requests a1 urls) = map line_custom_id (requests a2 urls).
Proof.
  assert (H : forall a, map line_custom_id (requests a urls)
                 = imap (fun k u => Some (JStr (custom_id (1 + Z.of_nat k) u))) urls).
  { intros a. unfold requests. rewrite map_map.
    rewrite <- (enumerate_imap (fun i u => Some (JStr (custom_id i u)))).
    apply map_ext. intros [i u]. apply request_custom_id. }
  split; [apply H|]. by rewrite !H.
Qed.

(** C6. For every list of targets (empty or not), the encoder produces
    exactly one request per item, and the identifiers of the requests are
    pairwise distinct, also when targets or their slugs coincide. *)
Theorem requests_one_per_item_distinct_ids (a : args) (urls : list pystr) :
  length (requests a urls) = length urls
  /\ exists ids : list pystr,
      map line_custom_id (requests a urls) = map (fun id => Some (JStr id)) ids
      /\ NoDup ids.
Proof.
  split.
  - unfold requests. by rewrite length_map, length_enumerate.
  - exists (custom_ids 1 urls). split; [apply requests_custom_ids|].
    by apply custom_ids_NoDup.
Qed.

End IdentifierProperties.

(** * The polling loop *)
Section Polling.

Import run_batch.

Variable svc : service.
Variable batch_id : pystr.
Variable secs : Z.


Lemma time_sleep_some (t : Z) (e : exn) :
  time_sleep t = Some e
  <-> (e = sleep_error /\ (- sleep_limit < t < 0)%Z)
      \/ (e = OverflowError /\ (sleep_limit <= Z.abs t)%Z).
Proof.
  unfold time_sleep, sleep_limit, sleep_error.
  destruct (Z.leb_spec 9223372037 (Z.abs t)).
  - split; [intros [= <-]; by right|]. intros [[_ ?]|[-> _]]; [lia|done].
  - destruct (Z.ltb_spec t 0).
    + split; [intros [= <-]; left; split; [done|lia]|].
      intros [[-> _]|[_ ?]]; [done|lia].
    + split; [done|]. intros [[_ ?]|[_ ?]]; lia.
Qed.

(** The ways through one iteration. *)
Lemma poll_loop_break fuel n :
  is_terminal (status_of (batches_retrieve svc batch_id n)) = true ->
  poll_loop (S fuel) svc batch_id secs n
  = (last_iteration svc batch_id n, Returns (batches_retrieve svc batch_id n)).
Proof. intros H. simpl. by rewrite H. Qed.

Lemma poll_loop_again fuel n :
  is_terminal (status_of (batches_retrieve svc batch_id n)) = false ->
  time_sleep secs = None ->
  poll_loop (S fuel) svc batch_id secs n
  = (iteration svc batch_id secs n ++ (poll_loop fuel svc batch_id secs (S n)).1,
     (poll_loop fuel svc batch_id secs (S n)).2).
Proof.
  intros H Hs. cbn [poll_loop]. rewrite H, Hs.
  by destruct (poll_loop fuel svc batch_id secs (S n)).
Qed.

Lemma poll_loop_bad_sleep fuel n e :
  is_terminal (status_of (batches_retrieve svc batch_id n)) = false ->
  time_sleep secs = Some e ->
  poll_loop (S fuel) svc batch_id secs n
  = (last_iteration svc batch_id n, Raises e).
Proof. intros H Hs. cbn [poll_loop]. by rewrite H, Hs. Qed.

(** Every run of the function is a run of the relation. *)
Lemma poll_loop_run fuel n :
  poll_run svc batch_id secs n
    (poll_loop fuel svc batch_id secs n).1 (poll_loop fuel svc batch_id secs n).2.
Proof.
  revert n. induction fuel as [|fuel IH]; intros n; [constructor|].
  destruct (is_terminal (status_of (batches_retrieve svc batch_id n))) eqn:Ht.
  - rewrite poll_loop_break by done. by constructor.
  - destruct (time_sleep secs) as [e|] eqn:Hs.
    + rewrite (poll_loop_bad_sleep _ _ e) by done. by constructor.
    + rewrite poll_loop_again by done. by constructor.
Qed.

(** Every run of the relation that ends is a run of the function. *)
Lemma poll_run_loop n evs r :
  poll_run svc batch_id secs n evs r -> r <> OutOfFuel ->
  exists fuel, poll_loop fuel svc batch_id secs n = (evs, r).
Proof.
  induction 1 as [n|n Ht|n e Ht Hs|n evs r Ht Hs _ IH]; intros Hr.
  - done.
  - exists 1%nat. by apply poll_loop_break.
  - exists 1%nat. by apply poll_loop_bad_sleep.
  - destruct (IH Hr) as [fuel E]. exists (S fuel).
    rewrite poll_loop_again by done. by rewrite E.
Qed.




(** In a run, a wait comes only after a status that is not terminal: the
    events before the last iteration are whole iterations, and the last
    iteration has no wait. *)
Lemma poll_run_no_sleep_at_end n evs r :
  poll_run svc batch_id secs n evs r ->
  exists m,
    (forall k, (k < m)%nat -> is_terminal (status_of (batches_retrieve svc batch_id (n + k))) = false)
    /\ evs = flat_map (iteration svc batch_id secs) (seq n m)
            ++ match r with
               | OutOfFuel => []
               | _ => last_iteration svc batch_id (n + m)
               end.
Proof.
  induction 1 as [n|n Ht|n e Ht Hs|n evs r Ht Hs Hrun (m & Hnon & ->)].
  - exists 0%nat. split; [intros; lia|done].
  - exists 0%nat. rewrite Nat.add_0_r. split; [intros; lia|done].
  - exists 0%nat. rewrite Nat.add_0_r. split; [intros; lia|done].
  - exists (S m). split.
    + intros [|k] Hk; [by rewrite Nat.add_0_r|].
      rewrite Nat.add_succ_r. apply Hnon. lia.
    + simpl. rewrite Nat.add_succ_r. by destruct r.
Qed.

End Polling.

(** * Properties of the polling loop *)
Section PollingProperties.

Import run_batch.



Lemma download_results_no_sleep svc a batch_id b fs :
  Forall (fun e => is_sleep e = false) (download_results svc a batch_id b fs).1.1.
Proof.
  unfold download_results, save_file.
  destruct (truthy (output_file_id b)); simpl;
    [destruct (n_lines _); simpl|];
    destruct (truthy (error_file_id b)); simpl;
    destruct (status b); simpl;
    repeat (apply Forall_app; split); repeat constructor.
Qed.





(** C10. The poller never waits after it has seen a terminal status.  The
    events of every run of the loop are whole iterations (query, progress
    line, wait) for statuses that are not terminal, followed, unless the
    run is cut short, by one last iteration that has a query and a
    progress line and no wait.  So when the status is terminal at the
    first query, the loop ends after that query and its progress line; and
    a run of [main] that resumes such a batch does the query, the progress
    line and then the downloads, with no wait anywhere. *)
Theorem poller_never_sleeps_after_terminal
    (svc : service) (batch_id : pystr) (secs : Z) (n : nat) :
  (forall fuel, exists m,
     (forall k, (k < m)%nat ->
        is_terminal (status_of (batches_retrieve svc batch_id (n + k))) = false)
     /\ (poll_loop fuel svc batch_id secs n).1
        = flat_map (iteration svc batch_id secs) (seq n m)
          ++ match (poll_loop fuel svc batch_id secs n).2 with
             | OutOfFuel => []
             | _ => last_iteration svc batch_id (n + m)
             end)
  /\ (is_terminal (status_of (batches_retrieve svc batch_id n)) = true ->
     forall fuel,
       poll_loop (S fuel) svc batch_id secs n
       = ([Retrieve batch_id; Print (progress (batches_retrieve svc batch_id n))],
          Returns (batches_retrieve svc batch_id n)))
  /\ (forall a fuel fs,
     truthy (resume a) = Some batch_id -> poll a = secs ->
     is_terminal (status_of (batches_retrieve svc batch_id 1)) = true ->
     (main svc a (S fuel) fs).1.1
     = [Print (py "Resuming batch " ++ batch_id ++ [32; 8230]); Retrieve batch_id;
        Retrieve batch_id; Print (progress (batches_retrieve svc batch_id 1))]
       ++ (download_results svc a batch_id (batches_retrieve svc batch_id 1) fs).1.1
     /\ Forall (fun e => is_sleep e = false) (main svc a (S fuel) fs).1.1
     /\ (main svc a (S fuel) fs).1.2 <> OutOfFuel).
Proof.
  split; [|split].
  - intros fuel. apply poll_run_no_sleep_at_end, poll_loop_run.
  - intros Ht fuel. by apply poll_loop_break.
  - intros a fuel fs Hres Hpoll Ht.
    assert (E : main svc a (S fuel) fs
      = let '(evs2, e, fs') :=
          download_results svc a batch_id (batches_retrieve svc batch_id 1) fs in
        ([Print (py "Resuming batch " ++ batch_id ++ [32; 8230]); Retrieve batch_id]
           ++ last_iteration svc batch_id 1 ++ evs2,
         match e with Some e => Raises e | None => Returns () end, fs')).
    { unfold main. rewrite Hres, Hpoll. by rewrite poll_loop_break. }
    rewrite E.
    pose proof (download_results_no_sleep svc a batch_id
                  (batches_retrieve svc batch_id 1) fs) as Hno.
    destruct (download_results _ _ _ _ _) as [[evs2 e] fs']. simpl in *.
    split; [done|]. split.
    + repeat constructor. done.
    + by destruct e.
Qed.

Lemma poller_never_sleeps_after_terminal_witness :
  Forall (fun e => is_sleep e = false)
    (main (stub_service [] (py "completed") None (Some (py "file-out")) (py "{}" ++ [10]))
          sample_args 1 ∅).1.1.
Proof.
  destruct (poller_never_sleeps_after_terminal
              (stub_service [] (py "completed") None (Some (py "file-out")) (py "{}" ++ [10]))
              (py "batch-1") 15 0) as (_ & _ & H).
  apply (H sample_args 0%nat ∅); reflexivity.
Defined.

End PollingProperties.

(** * Numbers, printed and read back *)
Section NumberFacts.

Lemma nzhead_no_zero u v : Decimal.nzhead u <> Decimal.D0 v.
Proof. induction u; simpl; try discriminate. apply IHu. Qed.

Lemma to_uint_canonical n : Decimal.unorm (N.to_uint n) = N.to_uint n.
Proof. by rewrite <- Unsigned.to_of, Unsigned.of_to. Qed.

Lemma to_uint_leading_zero n u :
  N.to_uint n = Decimal.D0 u -> n = 0 /\ u = Decimal.Nil.
Proof.
  intros H. pose proof (to_uint_canonical n) as C. rewrite H in C.
  unfold Decimal.unorm in C. simpl in C.
  destruct (Decimal.nzhead u) eqn:E; try discriminate.
  - injection C as <-. split; [|done].
    rewrite <- (Unsigned.of_to n), H. reflexivity.
  - by apply nzhead_no_zero in E.
Qed.

Lemma to_uint_not_nil n : N.to_uint n <> Decimal.Nil.
Proof.
  intros H. pose proof (to_uint_canonical n) as C. rewrite H in C. discriminate.
Qed.

Lemma str_digits_cases n :
  (n = 0 /\ uint_digits (N.to_uint n) = [d0])
  \/ exists d l, uint_digits (N.to_uint n) = d :: l /\ d <> d0.
Proof.
  pose proof (to_uint_not_nil n) as Hnil.
  pose proof (to_uint_leading_zero n) as Hzero.
  destruct (N.to_uint n) as [|u|u|u|u|u|u|u|u|u|u]; [done| |right; simpl; eauto..].
  destruct (Hzero u eq_refl) as [-> ->]. by left.
Qed.

Lemma span_digits_str ds rest :
  no_digit_head rest -> span_digits (digits_str ds ++ rest) = (ds, rest).
Proof.
  intros Hrest. induction ds as [|d ds IH]; simpl.
  - destruct rest as [|c rest]; [done|]. simpl in *. by rewrite Hrest.
  - by rewrite char_digit_char, IH.
Qed.

Lemma stops_no_digit rest : stops rest -> no_digit_head rest.
Proof. destruct rest as [|c rest]; [done|]. simpl. by intros [->|[->| ->]]. Qed.

Lemma split_sign_digits d l rest :
  split_sign (digits_str (d :: l) ++ rest) = (false, digits_str (d :: l) ++ rest).
Proof. by destruct d. Qed.

Lemma scan_int_part_str n rest :
  no_digit_head rest -> scan_int_part (str_of_N n ++ rest) = Some (n, rest).
Proof.
  intros Hrest. unfold str_of_N.
  destruct (str_digits_cases n) as [[-> ->]|(d & l & E & Hd)]; [done|].
  pose proof (N_of_str_digits n) as Hn. rewrite E in *.
  pose proof (span_digits_str (d :: l) rest Hrest) as Hspan.
  unfold scan_int_part. rewrite Hspan, Hn. simpl.
  by destruct d.
Qed.

Lemma scan_frac_digits f0 fs rest :
  no_digit_head rest ->
  scan_frac (46 :: digits_str (f0 :: fs) ++ rest) = Some (f0, fs, rest).
Proof. intros Hrest. unfold scan_frac. by rewrite span_digits_str. Qed.

Lemma scan_exp_digits (eneg : bool) (eabs : N) (rest : pystr) :
  no_digit_head rest ->
  scan_exp (101 :: (if eneg then 45 else 43) :: zfill 2 (str_of_N eabs) ++ rest)
  = Some (eneg, eabs, rest).
Proof.
  intros Hrest. unfold str_of_N. rewrite zfill_digits.
  set (ds := replicate _ d0 ++ _).
  assert (Hn : N_of_digits ds = eabs)
    by (subst ds; by rewrite N_of_digits_zeros, N_of_str_digits).
  assert (Hne : ds <> []).
  { subst ds. intros [_ H]%app_eq_nil.
    destruct (str_digits_cases eabs) as [[_ E]|(d & l & E & _)];
      rewrite E in H; discriminate. }
  clearbody ds. unfold scan_exp. simpl.
  destruct eneg; simpl; rewrite span_digits_str by done;
    (destruct ds; [done|]); by rewrite Hn.
Qed.

Lemma scan_frac_stops rest : stops rest -> scan_frac rest = None.
Proof. destruct rest as [|c rest]; [done|]. by intros [->|[->| ->]]. Qed.

Lemma scan_exp_stops rest : stops rest -> scan_exp rest = None.
Proof. destruct rest as [|c rest]; [done|]. by intros [->|[->| ->]]. Qed.

Lemma scan_number_nat (neg : bool) (n : N) (s : pystr) :
  no_digit_head s ->
  scan_number (sign_str neg ++ str_of_N n ++ s)
  = match scan_frac s with
    | Some (f0, fs, s3) =>
        match scan_exp s3 with
        | Some (eneg, eabs, s4) => Some (JFloat (FSci neg n (f0 :: fs) eneg eabs), s4)
        | None => Some (JFloat (FFix neg n f0 fs), s3)
        end
    | None =>
        match scan_exp s with
        | Some (eneg, eabs, s4) => Some (JFloat (FSci neg n [] eneg eabs), s4)
        | None => Some (JInt (if neg then - Z.of_N n else Z.of_N n), s)
        end
    end.
Proof.
  intros Hs. unfold scan_number.
  assert (Hsign : split_sign (sign_str neg ++ str_of_N n ++ s) = (neg, str_of_N n ++ s)).
  { destruct neg; [done|]. simpl. unfold str_of_N.
    destruct (str_digits_cases n) as [[_ ->]|(d & l & -> & _)]; apply split_sign_digits. }
  rewrite Hsign. by rewrite scan_int_part_str.
Qed.

End NumberFacts.

(** * [json.loads] reads back what [json.dumps] writes *)
Section JsonFacts.

Lemma json_induction (P : json -> Prop) :
  P JNull -> (forall b, P (JBool b)) -> (forall z, P (JInt z)) ->
  (forall f, P (JFloat f)) -> (forall s, P (JStr s)) ->
  (forall l, Forall P l -> P (JList l)) ->
  (forall d, Forall (fun kv => P (snd kv)) d -> P (JDict d)) ->
  forall v, P v.
Proof.
  intros Hnull Hbool Hint Hfloat Hstr Hlist Hdict. fix IH 1.
  intros [ |b|z|f|s|l|d]; [done|done|done|done|done| |].
  - apply Hlist. induction l as [|x l IHl]; constructor; [apply IH|exact IHl].
  - apply Hdict. induction d as [|kv d IHd]; constructor; [apply IH|exact IHd].
Qed.

(** The equations of [dumps]. *)
Lemma dumps_int z : dumps (JInt z) = str_of_Z z.
Proof. reflexivity. Qed.

Lemma dumps_float f : dumps (JFloat f) = float_repr f.
Proof. reflexivity. Qed.

Lemma dumps_str s : dumps (JStr s) = encode_basestring s.
Proof. reflexivity. Qed.

(** Strings. *)
Lemma scanstring_plain c s :
  c <> 34 -> c <> 92 -> 32 <= c ->
  scanstring (c :: s)
  = match scanstring s with
    | Some (str, rest) => Some (c :: str, rest)
    | None => None
    end.
Proof.
  intros H1 H2 H3. simpl.
  rewrite (proj2 (N.eqb_neq c 34)), (proj2 (N.eqb_neq c 92)) by done.
  by rewrite (proj2 (N.ltb_ge c 32)).
Qed.

Lemma scanstring_escape e c s :
  e <> 117 -> unescape e = Some c ->
  scanstring (92 :: e :: s)
  = match scanstring s with
    | Some (str, rest) => Some (c :: str, rest)
    | None => None
    end.
Proof.
  intros H1 H2. simpl. by rewrite (proj2 (N.eqb_neq e 117)), H2.
Qed.

Lemma scanstring_hex h1 h2 h3 h4 u s :
  hex4 h1 h2 h3 h4 = Some u -> is_high_surrogate u = false ->
  scanstring (92 :: 117 :: h1 :: h2 :: h3 :: h4 :: s)
  = match scanstring s with
    | Some (str, rest) => Some (u :: str, rest)
    | None => None
    end.
Proof. intros H1 H2. simpl. by rewrite H1, H2. Qed.

Lemma hex4_control c :
  c < 32 ->
  hex4 48 48 (hex_char (c / 16)) (hex_char (c mod 16)) = Some c
  /\ is_high_surrogate c = false.
Proof.
  intros Hc.
  assert (Hall : forallb
            (fun n => match hex4 48 48 (hex_char (n / 16)) (hex_char (n mod 16)) with
                      | Some u => (u =? n) && negb (is_high_surrogate n)
                      | None => false
                      end) (map N.of_nat (seq 0 32)) = true) by (vm_compute; reflexivity).
  rewrite forallb_forall in Hall.
  assert (Hin : In c (map N.of_nat (seq 0 32))).
  { apply in_map_iff. exists (N.to_nat c). split; [lia|]. apply in_seq. lia. }
  specialize (Hall c Hin). destruct (hex4 _ _ _ _) as [u|]; [|done].
  apply andb_prop in Hall as [Hu Hs].
  apply N.eqb_eq in Hu as ->. by apply negb_true_iff in Hs.
Qed.

Lemma scanstring_escape_char c s :
  scanstring (escape_char c ++ s)
  = match scanstring s with
    | Some (str, rest) => Some (c :: str, rest)
    | None => None
    end.
Proof.
  unfold escape_char.
  destruct (N.eqb_spec c 34) as [->|H34]; [reflexivity|].
  destruct (N.eqb_spec c 92) as [->|H92]; [reflexivity|].
  destruct (N.eqb_spec c 10) as [->|H10]; [reflexivity|].
  destruct (N.eqb_spec c 13) as [->|H13]; [reflexivity|].
  destruct (N.eqb_spec c 9) as [->|H9]; [reflexivity|].
  destruct (N.eqb_spec c 8) as [->|H8]; [reflexivity|].
  destruct (N.eqb_spec c 12) as [->|H12]; [reflexivity|].
  destruct (N.ltb_spec c 32) as [Hc|Hc].
  - destruct (hex4_control c Hc) as [Hh Hs].
    apply (scanstring_hex _ _ _ _ _ _ Hh Hs).
  - by apply scanstring_plain.
Qed.

Lemma scanstring_escaped s rest :
  scanstring (flat_map escape_char s ++ 34 :: rest) = Some (s, rest).
Proof.
  induction s as [|c s IH]; [done|].
  change (flat_map escape_char (c :: s)) with (escape_char c ++ flat_map escape_char s).
  by rewrite <- app_assoc, scanstring_escape_char, IH.
Qed.

(** Heads of values. *)
Lemma head_is_eq c s : head_is c (c :: s) = Some s.
Proof. simpl. by rewrite N.eqb_refl. Qed.

Lemma head_is_ne c x s : x <> c -> head_is c (x :: s) = None.
Proof. intros H. simpl. by rewrite (proj2 (N.eqb_neq x c)). Qed.

Lemma skip_ws_value s : value_head s -> skip_ws s = s.
Proof. destruct s as [|c s]; [done|]. simpl. by intros [-> _]. Qed.

Lemma head_is_value c s : (c = 93 \/ c = 125) -> value_head s -> head_is c s = None.
Proof.
  destruct s as [|x s]; [done|]. intros Hc (_ & H93 & H125).
  apply head_is_ne. by destruct Hc as [->| ->].
Qed.

Lemma str_of_N_cons n : exists d l, str_of_N n = digits_str (d :: l).
Proof.
  unfold str_of_N.
  destruct (str_digits_cases n) as [[_ ->]|(d & l & -> & _)]; eauto.
Qed.

Lemma value_head_digits d l rest : value_head (digits_str (d :: l) ++ rest).
Proof. by destruct d. Qed.

Lemma number_head_digits d l rest : number_head (digits_str (d :: l) ++ rest).
Proof. right. by exists d. Qed.

Lemma value_head_signed neg n rest : value_head (sign_str neg ++ str_of_N n ++ rest).
Proof.
  destruct neg; [done|]. destruct (str_of_N_cons n) as (d & l & ->).
  apply value_head_digits.
Qed.

Lemma number_head_signed neg n rest : number_head (sign_str neg ++ str_of_N n ++ rest).
Proof.
  destruct neg; [by left|]. destruct (str_of_N_cons n) as (d & l & ->).
  apply number_head_digits.
Qed.

Lemma str_of_Z_signed z :
  str_of_Z z = sign_str (z <? 0)%Z ++ str_of_N (Z.abs_N z).
Proof. by destruct z. Qed.

Lemma float_repr_signed f :
  match f with
  | FNaN | FInf _ => True
  | FFix neg ip _ _ | FSci neg ip _ _ _ =>
      exists tail, forall rest,
        float_repr f ++ rest = sign_str neg ++ str_of_N ip ++ tail ++ rest
  end.
Proof.
  destruct f as [ |neg|neg ip f0 fs|neg ip fs eneg eabs]; [done|done| |].
  - exists (46 :: digits_str (f0 :: fs)). intros rest. simpl.
    by rewrite <- !app_assoc.
  - exists (match fs with [] => [] | _ => 46 :: digits_str fs end
            ++ 101 :: (if eneg then 45 else 43) :: zfill 2 (str_of_N eabs)).
    intros rest. unfold float_repr. by rewrite <- !app_assoc.
Qed.

Lemma dumps_head v rest : value_head (dumps v ++ rest).
Proof.
  destruct v as [ |[|]|z|f|s|l|d]; try done.
  - rewrite dumps_int, str_of_Z_signed, <- app_assoc. apply value_head_signed.
  - pose proof (float_repr_signed f) as H. rewrite dumps_float.
    destruct f as [ |[|]|neg ip f0 fs|neg ip fs eneg eabs]; try done;
      destruct H as [tail ->]; apply value_head_signed.
Qed.

(** Numbers inside a document. *)
Lemma scan_once_atom fuel c s :
  c <> 34 -> c <> 123 -> c <> 91 -> scan_once (S fuel) (c :: s) = scan_atom (c :: s).
Proof.
  intros H1 H2 H3. cbn [scan_once].
  by rewrite (proj2 (N.eqb_neq c 34)), (proj2 (N.eqb_neq c 123)),
    (proj2 (N.eqb_neq c 91)).
Qed.

Lemma scan_atom_number c s r :
  c <> 110 -> c <> 116 -> c <> 102 ->
  scan_number (c :: s) = Some r -> scan_atom (c :: s) = Some r.
Proof.
  intros H1 H2 H3 H. unfold scan_atom.
  by rewrite (proj2 (N.eqb_neq c 110)), (proj2 (N.eqb_neq c 116)),
    (proj2 (N.eqb_neq c 102)), H.
Qed.

Lemma scan_once_number fuel s r :
  number_head s -> scan_number s = Some r -> scan_once (S fuel) s = Some r.
Proof.
  destruct s as [|c s]; [done|]. intros Hc H.
  assert (Hne : forall x, In x [34; 123; 91; 110; 116; 102] -> c <> x).
  { intros x Hx. destruct Hc as [->|[d ->]]; [|destruct d];
      simpl in Hx; intuition (subst; discriminate). }
  rewrite scan_once_atom by (apply Hne; simpl; tauto).
  apply scan_atom_number; [apply Hne; simpl; tauto..|done].
Qed.

Lemma scan_once_int z : reads_back (JInt z).
Proof.
  intros [|fuel] rest _ Hfuel Hrest; [simpl in Hfuel; lia|].
  rewrite dumps_int, str_of_Z_signed, <- app_assoc.
  apply scan_once_number; [apply number_head_signed|].
  rewrite scan_number_nat by by apply stops_no_digit.
  rewrite scan_frac_stops, scan_exp_stops by done.
  do 2 f_equal. destruct z; simpl; f_equal; lia.
Qed.

Lemma scan_once_float f : reads_back (JFloat f).
Proof.
  intros [|fuel] rest _ Hfuel Hrest; [simpl in Hfuel; lia|].
  destruct f as [ |[|]|neg ip f0 fs|neg ip fs eneg eabs]; [done|done|done| |].
  - rewrite dumps_float. unfold float_repr. rewrite <- !app_assoc.
    apply scan_once_number; [apply number_head_signed|].
    rewrite scan_number_nat by done.
    rewrite <- app_comm_cons, scan_frac_digits by by apply stops_no_digit.
    by rewrite scan_exp_stops.
  - rewrite dumps_float. unfold float_repr. rewrite <- !app_assoc.
    apply scan_once_number; [apply number_head_signed|].
    destruct fs as [|f0 fs].
    + simpl app. rewrite scan_number_nat by done.
      change (scan_frac (101 :: ?s)) with (@None (digit * list digit * pystr)).
      by rewrite scan_exp_digits by by apply stops_no_digit.
    + rewrite scan_number_nat by done.
      rewrite <- app_comm_cons, scan_frac_digits by done.
      rewrite <- !app_comm_cons.
      by rewrite scan_exp_digits by by apply stops_no_digit.
Qed.

(** Lists and dicts, one item at a time. *)
Lemma sep_join_cons {A} (f : A -> pystr) x l :
  sep_join f (x :: l) = f x ++ match l with [] => [] | _ => 44 :: 32 :: sep_join f l end.
Proof. reflexivity. Qed.

Lemma dumps_list l : dumps (JList l) = 91 :: sep_join dumps l ++ [93].
Proof. reflexivity. Qed.

Lemma dumps_dict d : dumps (JDict d) = 123 :: sep_join dumps_member d ++ [125].
Proof. reflexivity. Qed.

Lemma json_size_list l :
  json_size (JList l) = S (list_sum (map (fun x => S (json_size x)) l)).
Proof. reflexivity. Qed.

Lemma json_size_dict d :
  json_size (JDict d) = S (list_sum (map (fun kv => S (json_size (snd kv))) d)).
Proof. reflexivity. Qed.

Lemma scan_once_list fuel s :
  scan_once (S fuel) (91 :: s)
  = match head_is 93 (skip_ws s) with
    | Some rest => Some (JList [], rest)
    | None => scan_items fuel [] (skip_ws s)
    end.
Proof. reflexivity. Qed.

Lemma scan_once_dict fuel s :
  scan_once (S fuel) (123 :: s)
  = match head_is 125 (skip_ws s) with
    | Some rest => Some (JDict [], rest)
    | None => scan_pairs fuel [] (skip_ws s)
    end.
Proof. reflexivity. Qed.

Lemma scan_once_str fuel s :
  scan_once (S fuel) (34 :: s)
  = match scanstring s with
    | Some (str, rest) => Some (JStr str, rest)
    | None => None
    end.
Proof. reflexivity. Qed.

Lemma skip_ws_space s : skip_ws (32 :: s) = skip_ws s.
Proof. reflexivity. Qed.

Lemma skip_ws_stops c s : stops (c :: s) -> skip_ws (c :: s) = c :: s.
Proof. by intros [->|[->| ->]]. Qed.

Lemma scan_item fuel acc x more :
  reads_back x -> json_wf x -> (json_size x <= fuel)%nat -> stops more ->
  scan_items (S fuel) acc (dumps x ++ more)
  = match head_is 93 (skip_ws more) with
    | Some rest => Some (JList (acc ++ [x]), rest)
    | None =>
        match head_is 44 (skip_ws more) with
        | Some s2 => scan_items fuel (acc ++ [x]) (skip_ws s2)
        | None => None
        end
    end.
Proof.
  intros Hx Hwf Hfuel Hmore.
  change (scan_items (S fuel) acc (dumps x ++ more))
    with (match scan_once fuel (dumps x ++ more) with
          | None => None
          | Some (v, s1) =>
              match head_is 93 (skip_ws s1) with
              | Some rest => Some (JList (acc ++ [v]), rest)
              | None =>
                  match head_is 44 (skip_ws s1) with
                  | Some s2 => scan_items fuel (acc ++ [v]) (skip_ws s2)
                  | None => None
                  end
              end
          end).
  by rewrite Hx.
Qed.

Lemma scan_member fuel acc k x more :
  reads_back x -> json_wf x -> (json_size x <= fuel)%nat -> stops more ->
  scan_pairs (S fuel) acc (dumps_member (k, x) ++ more)
  = match head_is 125 (skip_ws more) with
    | Some rest => Some (JDict (dict_set k x acc), rest)
    | None =>
        match head_is 44 (skip_ws more) with
        | Some s5 => scan_pairs fuel (dict_set k x acc) (skip_ws s5)
        | None => None
        end
    end.
Proof.
  intros Hx Hwf Hfuel Hmore.
  assert (E : dumps_member (k, x) ++ more
              = 34 :: (flat_map escape_char k ++ 34 :: 58 :: 32 :: (dumps x ++ more))).
  { unfold dumps_member, encode_basestring. simpl fst. simpl snd.
    rewrite <- !app_assoc. simpl. by rewrite <- !app_assoc. }
  rewrite E.
  change (scan_pairs (S fuel) acc (34 :: ?s))
    with (match scanstring s with
          | None => None
          | Some (key, s2) =>
              match head_is 58 (skip_ws s2) with
              | None => None
              | Some s3 =>
                  match scan_once fuel (skip_ws s3) with
                  | None => None
                  | Some (v, s4) =>
                      match head_is 125 (skip_ws s4) with
                      | Some rest => Some (JDict (dict_set key v acc), rest)
                      | None =>
                          match head_is 44 (skip_ws s4) with
                          | Some s5 => scan_pairs fuel (dict_set key v acc) (skip_ws s5)
                          | None => None
                          end
                      end
                  end
              end
          end).
  rewrite scanstring_escaped.
  change (skip_ws (58 :: ?s)) with (58 :: s).
  rewrite head_is_eq, skip_ws_space, (skip_ws_value _ (dumps_head x more)).
  by rewrite Hx.
Qed.

Lemma dict_set_fresh {A} k (v : A) d :
  k ∉ map fst d -> dict_set k v d = d ++ [(k, v)].
Proof.
  induction d as [|[k' v'] d IH]; simpl; [done|].
  intros [Hk Hd]%not_elem_of_cons.
  destruct (decide (k = k')); [done|]. by rewrite IH.
Qed.

Lemma scan_items_reads_back l :
  Forall reads_back l -> l <> [] ->
  forall fuel acc rest,
    fold_right (fun x a => json_wf x /\ a) True l ->
    (list_sum (map (fun x => S (json_size x)) l) <= fuel)%nat ->
    scan_items fuel acc (sep_join dumps l ++ 93 :: rest) = Some (JList (acc ++ l), rest).
Proof.
  induction 1 as [|x l Hx Hl IH]; [done|].
  intros _ fuel acc rest [Hwx Hwl] Hfuel. simpl in Hfuel.
  destruct fuel as [|fuel]; [lia|].
  rewrite sep_join_cons, <- app_assoc.
  destruct l as [|y l].
  - rewrite scan_item; [|done|done|lia|simpl; auto].
    rewrite app_nil_l.
    by rewrite skip_ws_stops, head_is_eq by (simpl; auto).
  - rewrite scan_item; [|done|done|lia|simpl; auto].
    rewrite <- !app_comm_cons.
    rewrite skip_ws_stops by (simpl; auto).
    rewrite head_is_ne, head_is_eq by done.
    rewrite skip_ws_space.
    rewrite skip_ws_value
      by (rewrite sep_join_cons, <- app_assoc; apply dumps_head).
    rewrite IH; [|done|done|simpl in *; lia].
    by rewrite <- app_assoc.
Qed.

Lemma scan_pairs_reads_back d :
  Forall (fun kv => reads_back (snd kv)) d -> d <> [] ->
  forall fuel acc rest,
    NoDup (map fst (acc ++ d)) ->
    fold_right (fun kv a => json_wf (snd kv) /\ a) True d ->
    (list_sum (map (fun kv => S (json_size (snd kv))) d) <= fuel)%nat ->
    scan_pairs fuel acc (sep_join dumps_member d ++ 125 :: rest)
    = Some (JDict (acc ++ d), rest).
Proof.
  induction 1 as [|[k x] d Hx Hd IH]; [done|].
  intros _ fuel acc rest Hnd [Hwx Hwd] Hfuel. simpl in Hfuel, Hx, Hwx.
  destruct fuel as [|fuel]; [lia|].
  assert (Hfresh : k ∉ map fst acc).
  { rewrite map_app in Hnd. apply NoDup_app in Hnd as (_ & Hdis & _).
    intros Hin. apply (Hdis k Hin). simpl. by left. }
  rewrite sep_join_cons, <- app_assoc.
  destruct d as [|kv d].
  - rewrite scan_member; [|done|done|lia|simpl; auto].
    rewrite app_nil_l.
    rewrite skip_ws_stops, head_is_eq by (simpl; auto).
    by rewrite dict_set_fresh.
  - rewrite scan_member; [|done|done|lia|simpl; auto].
    rewrite <- !app_comm_cons.
    rewrite skip_ws_stops by (simpl; auto).
    rewrite head_is_ne, head_is_eq by done.
    rewrite skip_ws_space.
    assert (Hq : forall s, skip_ws (sep_join dumps_member (kv :: d) ++ s)
                      = sep_join dumps_member (kv :: d) ++ s).
    { intros s. apply skip_ws_value. rewrite sep_join_cons.
      unfold dumps_member at 1, encode_basestring. done. }
    rewrite Hq, dict_set_fresh by done.
    rewrite IH; [|done|by rewrite <- app_assoc|done|simpl in *; lia].
    by rewrite <- app_assoc.
Qed.

(** Every value whose dicts have distinct keys is read back. *)
Lemma dumps_reads_back v : reads_back v.
Proof.
  induction v as [ |b|z|f|s|l Hl|d Hd] using json_induction.
  - by intros [|fuel] rest _ Hfuel _; [simpl in Hfuel; lia|].
  - by intros [|fuel] rest _ Hfuel _; [simpl in Hfuel; lia|destruct b].
  - apply scan_once_int.
  - apply scan_once_float.
  - intros [|fuel] rest _ Hfuel _; [simpl in Hfuel; lia|].
    rewrite dumps_str. unfold encode_basestring. push_app.
    by rewrite scan_once_str, scanstring_escaped.
  - intros [|fuel] rest Hwf Hfuel Hrest; [simpl in Hfuel; lia|].
    rewrite dumps_list. push_app. rewrite scan_once_list.
    destruct l as [|x l]; [done|].
    rewrite skip_ws_value
      by (rewrite sep_join_cons, <- app_assoc; apply dumps_head).
    rewrite head_is_value;
      [|by left|rewrite sep_join_cons, <- app_assoc; apply dumps_head].
    rewrite json_size_list in Hfuel.
    apply (scan_items_reads_back _ Hl); [done|done|lia].
  - intros [|fuel] rest Hwf Hfuel Hrest; [simpl in Hfuel; lia|].
    rewrite dumps_dict. push_app. rewrite scan_once_dict.
    destruct d as [|kv d]; [done|].
    assert (Hhead : value_head (sep_join dumps_member (kv :: d) ++ 125 :: rest)).
    { rewrite sep_join_cons. unfold dumps_member at 1, encode_basestring. done. }
    rewrite skip_ws_value, head_is_value by (done || by right).
    destruct Hwf as [Hnd Hwf]. rewrite json_size_dict in Hfuel.
    apply (scan_pairs_reads_back _ Hd); [done|done|done|lia].
Qed.

Lemma list_sum_sizes {A} (size : A -> nat) (f : A -> pystr) l :
  Forall (fun x => (size x <= length (f x))%nat) l ->
  (list_sum (map (fun x => S (size x)) l) <= length (sep_join f l) + 1)%nat.
Proof.
  induction 1 as [|x l Hx Hl IH]; [simpl; lia|].
  rewrite sep_join_cons, length_app. simpl map. simpl list_sum.
  destruct l; simpl in *; lia.
Qed.

Lemma json_size_length v : (json_size v <= length (dumps v))%nat.
Proof.
  induction v as [ |b|z|f|s|l Hl|d Hd] using json_induction;
    try (match goal with
         | |- (json_size ?v <= _)%nat =>
             pose proof (dumps_head v []) as H; rewrite app_nil_r in H;
             destruct (dumps v); [done|simpl; lia]
         end).
  - rewrite dumps_list, json_size_list. simpl length. rewrite length_app. simpl length.
    pose proof (list_sum_sizes json_size dumps l Hl). lia.
  - rewrite dumps_dict, json_size_dict. simpl length. rewrite length_app. simpl length.
    assert (H : Forall (fun kv => (json_size (snd kv) <= length (dumps_member kv))%nat) d).
    { eapply Forall_impl; [exact Hd|]. intros kv Hkv. cbn beta in Hkv.
      unfold dumps_member. rewrite length_app.
      change (length (58 :: 32 :: ?t)) with (S (S (length t))). lia. }
    pose proof (list_sum_sizes (fun kv => json_size (snd kv)) dumps_member d H). lia.
Qed.

(** The round trip of [json]: for every value whose dicts have distinct
    keys, [loads (dumps v)] is [v]. *)
Lemma loads_dumps v : json_wf v -> loads (dumps v) = Some v.
Proof.
  intros Hwf. unfold loads.
  pose proof (dumps_head v []) as Hhead. rewrite app_nil_r in Hhead.
  rewrite (skip_ws_value _ Hhead).
  pose proof (dumps_reads_back v (S (length (dumps v))) [] Hwf) as H.
  rewrite app_nil_r in H. rewrite H; [done| |done].
  pose proof (json_size_length v). lia.
Qed.

End JsonFacts.

(** * The lines of the artifact *)
Section ArtifactFacts.

Import generate_jsonl.

Lemma json_wfb_sound v : json_wfb v = true -> json_wf v.
Proof.
  induction v as [ | | | | |l Hl|d Hd] using json_induction; try done.
  - simpl. induction Hl as [|x l Hx _ IH]; [done|]. simpl.
    intros [H1 H2]%andb_prop. split; [by apply Hx|by apply IH].
  - simpl. intros [H1 H2]%andb_prop. split; [by apply bool_decide_eq_true_1 in H1|].
    clear H1. induction Hd as [|kv d Hx _ IH]; [done|]. simpl in *.
    apply andb_prop in H2 as [H2 H3]. split; [by apply Hx|by apply IH].
Qed.

Lemma request_wf i u m t : json_wf (make_request_line i u m t).
Proof. apply json_wfb_sound. vm_compute. reflexivity. Qed.

Lemma printable_app s t : printable (s ++ t) = printable s && printable t.
Proof. apply forallb_app. Qed.

Lemma printable_digits l : printable (digits_str l) = true.
Proof. induction l as [|d l IH]; [done|]. simpl. rewrite IH. by destruct d. Qed.

Lemma printable_str_of_N n : printable (str_of_N n) = true.
Proof. apply printable_digits. Qed.

Lemma printable_sign neg : printable (sign_str neg) = true.
Proof. by destruct neg. Qed.

Lemma printable_float f : printable (float_repr f) = true.
Proof.
  destruct f as [ |[|]|neg ip f0 fs|neg ip fs eneg eabs]; try done.
  - unfold float_repr.
    rewrite !printable_app, printable_sign, printable_str_of_N.
    change (printable (46 :: ?s)) with (printable s).
    by rewrite printable_digits.
  - unfold float_repr.
    rewrite !printable_app, printable_sign, printable_str_of_N.
    assert (H1 : printable (match fs with [] => [] | _ => 46 :: digits_str fs end) = true).
    { destruct fs; [done|]. change (printable (46 :: ?s)) with (printable s).
      apply printable_digits. }
    assert (H2 : printable (101 :: (if eneg then 45 else 43) :: zfill 2 (str_of_N eabs))
                 = true).
    { unfold str_of_N. rewrite zfill_digits.
      destruct eneg; change (printable (101 :: ?x :: ?s)) with (printable s);
        apply printable_digits. }
    by rewrite H1, H2.
Qed.

Lemma hex_char_printable n : n < 16 -> (32 <=? hex_char n) = true.
Proof.
  intros Hn. unfold hex_char. destruct (N.ltb_spec n 10); apply N.leb_le; lia.
Qed.

Lemma printable_escape c : printable (escape_char c) = true.
Proof.
  unfold escape_char.
  repeat (match goal with
          | |- context [?x =? ?y] => destruct (x =? y); [done|]
          end).
  destruct (N.ltb_spec c 32) as [Hc|Hc]; unfold printable; cbn [forallb].
  - rewrite !hex_char_printable; [done| |].
    + apply N.mod_lt. lia.
    + apply N.Div0.div_lt_upper_bound. lia.
  - rewrite andb_true_r. by apply N.leb_le.
Qed.

Lemma printable_basestring s : printable (encode_basestring s) = true.
Proof.
  unfold encode_basestring.
  change (printable (34 :: ?t)) with (printable t).
  rewrite printable_app, andb_true_r.
  induction s as [|c s IH]; [done|].
  simpl flat_map. by rewrite printable_app, printable_escape, IH.
Qed.

Lemma printable_sep_join {A} (f : A -> pystr) l :
  Forall (fun x => printable (f x) = true) l -> printable (sep_join f l) = true.
Proof.
  induction 1 as [|x l Hx Hl IH]; [done|].
  rewrite sep_join_cons, printable_app, Hx.
  destruct l; [done|]. change (printable (44 :: 32 :: ?t)) with (printable t).
  by rewrite IH.
Qed.

(** [dumps] prints no control character: in particular no line break. *)
Lemma printable_dumps v : printable (dumps v) = true.
Proof.
  induction v as [ |b|z|f|s|l Hl|d Hd] using json_induction.
  - done.
  - by destruct b.
  - rewrite dumps_int, str_of_Z_signed, printable_app.
    by rewrite printable_sign, printable_str_of_N.
  - apply printable_float.
  - apply printable_basestring.
  - rewrite dumps_list. change (printable (91 :: ?t)) with (printable t).
    by rewrite printable_app, printable_sep_join.
  - rewrite dumps_dict. change (printable (123 :: ?t)) with (printable t).
    rewrite printable_app, printable_sep_join; [done|].
    eapply Forall_impl; [exact Hd|]. intros kv Hkv. cbn beta in Hkv.
    unfold dumps_member. rewrite printable_app, printable_basestring.
    change (printable (58 :: 32 :: ?t)) with (printable t). by rewrite Hkv.
Qed.

Lemma file_lines_line l rest :
  printable l = true -> file_lines (l ++ 10 :: rest) = l :: file_lines rest.
Proof.
  induction l as [|c l IH]; [done|]. intros [Hc Hl]%andb_prop.
  simpl. rewrite (IH Hl). apply N.leb_le in Hc.
  by destruct (N.eqb_spec c 10); [lia|].
Qed.

Lemma file_lines_concat (ls : list pystr) :
  Forall (fun l => printable l = true) ls ->
  file_lines (concat (map (fun l => l ++ [10]) ls)) = ls.
Proof.
  induction 1 as [|l ls Hl _ IH]; [done|].
  simpl. rewrite <- app_assoc. simpl. by rewrite file_lines_line, IH.
Qed.

(** The loop, when no line fails and when one does. *)
Lemma write_lines_all a items f :
  Forall (fun iu => utf8_encodable (line_text a iu) = true) items ->
  write_lines a items f = (None, f ++ concat (map (line_text a) items)).
Proof.
  intros H. revert f. induction H as [|[i u] items Hx _ IH]; intros f.
  - simpl. by rewrite app_nil_r.
  - simpl. unfold line_text in Hx. simpl in Hx. rewrite Hx, IH.
    unfold line_text at 2. simpl. by rewrite <- app_assoc.
Qed.

Lemma write_lines_first_bad a items f k iu :
  items !! k = Some iu ->
  utf8_encodable (line_text a iu) = false ->
  Forall (fun iu => utf8_encodable (line_text a iu) = true) (take k items) ->
  write_lines a items f
  = (Some UnicodeEncodeError, f ++ concat (map (line_text a) (take k items))).
Proof.
  revert f k. induction items as [|[i u] items IH]; intros f k Hk Hbad Hgood; [done|].
  destruct k as [|k].
  - injection Hk as <-. unfold line_text in Hbad. simpl in *. rewrite Hbad.
    by rewrite app_nil_r.
  - simpl in Hk, Hgood. apply Forall_cons in Hgood as [Hx Hgood].
    unfold line_text in Hx. simpl in Hx. simpl. rewrite Hx.
    rewrite (IH _ k Hk Hbad Hgood). unfold line_text at 2. simpl.
    by rewrite <- app_assoc.
Qed.

Lemma write_lines_none a items f :
  (write_lines a items f).1 = None ->
  (write_lines a items f).2 = f ++ concat (map (line_text a) items).
Proof.
  revert f. induction items as [|[i u] items IH]; intros f; simpl.
  - by rewrite app_nil_r.
  - destruct (utf8_encodable _) eqn:E; [|done].
    intros H. rewrite (IH _ H). unfold line_text at 2. simpl. by rewrite <- app_assoc.
Qed.

(** What can be written to the file. *)
Lemma encodable_app s t :
  utf8_encodable (s ++ t) = utf8_encodable s && utf8_encodable t.
Proof. apply forallb_app. Qed.

Lemma is_ascii_app s t : is_ascii (s ++ t) = is_ascii s && is_ascii t.
Proof. apply forallb_app. Qed.

Lemma ascii_encodable s : is_ascii s = true -> utf8_encodable s = true.
Proof.
  unfold is_ascii, utf8_encodable. rewrite !forallb_forall.
  intros H c Hc. apply H, N.ltb_lt in Hc. unfold is_surrogate.
  apply negb_true_iff, andb_false_intro1, N.leb_gt. lia.
Qed.

Lemma is_ascii_digits l : is_ascii (digits_str l) = true.
Proof. induction l as [|d l IH]; [done|]. simpl. rewrite IH. by destruct d. Qed.

Lemma is_ascii_str_of_N n : is_ascii (str_of_N n) = true.
Proof. apply is_ascii_digits. Qed.

Lemma is_ascii_sign neg : is_ascii (sign_str neg) = true.
Proof. by destruct neg. Qed.

Lemma is_ascii_format_05d z : is_ascii (format_05d z) = true.
Proof.
  unfold format_05d, str_of_N.
  destruct z; rewrite ?zfill_digits; apply is_ascii_digits.
Qed.

Lemma is_ascii_float f : is_ascii (float_repr f) = true.
Proof.
  destruct f as [ |[|]|neg ip f0 fs|neg ip fs eneg eabs]; try done;
    unfold float_repr, str_of_N; rewrite ?zfill_digits, !is_ascii_app,
      is_ascii_sign, !is_ascii_digits.
  - change (is_ascii (46 :: ?s)) with (is_ascii s). by rewrite is_ascii_digits.
  - destruct fs, eneg;
      repeat (change (is_ascii (?c :: ?s)) with ((c <? 128) && is_ascii s));
      by rewrite ?is_ascii_digits.
Qed.

Lemma is_ascii_in_class c : in_class c = true -> (c <? 128) = true.
Proof.
  rewrite in_class_is_allowed. unfold Spec.is_allowed.
  intros (y & Hy & Heq)%existsb_exists. apply N.eqb_eq in Heq as ->.
  assert (Hsmall : forallb (fun n => n <? 128) Spec.allowed = true)
    by (vm_compute; reflexivity).
  rewrite forallb_forall in Hsmall. by apply Hsmall.
Qed.

Lemma is_ascii_safe_stem url : is_ascii (generate_jsonl.safe_stem_from_url url) = true.
Proof.
  unfold safe_stem_from_url. set (stem := or_else _ _). clearbody stem.
  assert (H : is_ascii (re_sub_unsafe stem) = true).
  { induction stem as [|c stem IH]; [done|]. simpl. rewrite IH, andb_true_r.
    destruct (in_class c) eqn:E; [by apply is_ascii_in_class|done]. }
  rewrite <- (take_drop 60 (re_sub_unsafe stem)), is_ascii_app in H.
  by apply andb_prop in H as [H _].
Qed.

Lemma encodable_custom_id i u : utf8_encodable (custom_id i u) = true.
Proof.
  apply ascii_encodable. unfold custom_id.
  by rewrite !is_ascii_app, is_ascii_format_05d, is_ascii_safe_stem.
Qed.

Lemma encodable_strip u : utf8_encodable u = true -> utf8_encodable (strip u) = true.
Proof.
  intros H. unfold strip.
  destruct (lstrip_suffix u) as [pre E]. rewrite E, encodable_app in H.
  apply andb_prop in H as [_ H].
  destruct (rstrip_prefix (lstrip u)) as [post E']. rewrite E', encodable_app in H.
  by apply andb_prop in H as [H _].
Qed.

Lemma encodable_escape c :
  is_surrogate c = false -> utf8_encodable (escape_char c) = true.
Proof.
  intros Hc. unfold escape_char.
  repeat (match goal with
          | |- context [?x =? ?y] => destruct (x =? y); [done|]
          end).
  destruct (N.ltb_spec c 32) as [Hlt|Hge].
  - apply ascii_encodable. unfold is_ascii. cbn [forallb].
    assert (Hh : forall n, n < 16 -> (hex_char n <? 128) = true).
    { intros n Hn. unfold hex_char. destruct (N.ltb_spec n 10); apply N.ltb_lt; lia. }
    rewrite !Hh; [done| |].
    + apply N.mod_lt. lia.
    + apply N.Div0.div_lt_upper_bound. lia.
  - unfold utf8_encodable. simpl. by rewrite Hc.
Qed.

Lemma encodable_basestring s :
  utf8_encodable s = true -> utf8_encodable (encode_basestring s) = true.
Proof.
  intros Hs. unfold encode_basestring.
  change (utf8_encodable (34 :: ?t)) with (utf8_encodable t).
  rewrite encodable_app, andb_true_r.
  induction s as [|c s IH]; [done|].
  apply andb_prop in Hs as [Hc Hs]. apply negb_true_iff in Hc.
  simpl flat_map. by rewrite encodable_app, encodable_escape, IH.
Qed.

Lemma encodable_sep_join {A} (f : A -> pystr) l :
  Forall (fun x => utf8_encodable (f x) = true) l -> utf8_encodable (sep_join f l) = true.
Proof.
  induction 1 as [|x l Hx Hl IH]; [done|].
  rewrite sep_join_cons, encodable_app, Hx.
  destruct l; [done|]. change (utf8_encodable (44 :: 32 :: ?t)) with (utf8_encodable t).
  by rewrite IH.
Qed.

(** [dumps] prints text that can be encoded when the strings of the value
    can. *)
Lemma encodable_dumps v :
  json_strings_ok utf8_encodable v = true -> utf8_encodable (dumps v) = true.
Proof.
  induction v as [ |b|z|f|s|l Hl|d Hd] using json_induction; intros Hok.
  - done.
  - by destruct b.
  - apply ascii_encodable. rewrite dumps_int, str_of_Z_signed, is_ascii_app.
    by rewrite is_ascii_sign, is_ascii_str_of_N.
  - apply ascii_encodable, is_ascii_float.
  - by apply encodable_basestring.
  - rewrite dumps_list. change (utf8_encodable (91 :: ?t)) with (utf8_encodable t).
    rewrite encodable_app, encodable_sep_join; [done|].
    simpl in Hok. rewrite forallb_forall in Hok.
    rewrite Forall_forall in Hl |- *. intros x Hx.
    apply (Hl x Hx), Hok. by apply list_elem_of_In.
  - rewrite dumps_dict. change (utf8_encodable (123 :: ?t)) with (utf8_encodable t).
    rewrite encodable_app, encodable_sep_join; [done|].
    simpl in Hok. rewrite forallb_forall in Hok.
    rewrite Forall_forall in Hd |- *. intros kv Hkv.
    apply list_elem_of_In in Hkv as Hin. apply Hok, andb_prop in Hin as [Hk Hv].
    unfold dumps_member. rewrite encodable_app, encodable_basestring by done.
    change (utf8_encodable (58 :: 32 :: ?t)) with (utf8_encodable t).
    by apply (Hd kv Hkv).
Qed.

Lemma encodable_line a iu :
  utf8_encodable (model a) = true -> utf8_encodable (snd iu) = true ->
  utf8_encodable (line_text a iu) = true.
Proof.
  intros Hm Hu. unfold line_text. rewrite encodable_app, andb_true_r.
  apply encodable_dumps. unfold make_request_line.
  assert (Hschema : json_strings_ok utf8_encodable (build_json_schema DIMENSIONS) = true)
    by (vm_compute; reflexivity).
  assert (Hprompt : utf8_encodable PROMPT = true) by (vm_compute; reflexivity).
  cbn [json_strings_ok forallb fst snd].
  rewrite Hschema, Hprompt, Hm, encodable_custom_id, (encodable_strip _ Hu).
  reflexivity.
Qed.

Lemma read_urls_stripped text u : u ∈ read_urls text -> strip u = u.
Proof.
  unfold read_urls. intros (ln & -> & _)%list_elem_of_fmap. apply strip_idemp.
Qed.

Lemma enumerate_snd {A} start (l : list A) i x :
  (i, x) ∈ enumerate start l -> x ∈ l.
Proof.
  revert start. induction l as [|y l IH]; intros start; simpl.
  - by intros ?%elem_of_nil.
  - intros [H|H]%elem_of_cons.
    + injection H as _ ->. by left.
    + right. by eapply IH.
Qed.

Lemma enumerate_lookup {A} start (l : list A) k x :
  l !! k = Some x -> enumerate start l !! k = Some ((start + Z.of_nat k)%Z, x).
Proof.
  revert start k. induction l as [|y l IH]; intros start [|k] H; try done.
  - injection H as ->. simpl. do 2 f_equal. lia.
  - simpl. rewrite (IH _ _ H). do 2 f_equal. lia.
Qed.

End ArtifactFacts.

(** * Properties of the artifact *)
Section ArtifactProperties.

Import generate_jsonl.

(** C3, as stated, fails: when a line cannot be encoded, the final path
    does not keep what it held. *)
Lemma build_not_atomic_counterexample :
  (main bad_model_args sample_files).1 = Some UnicodeEncodeError
  /\ (main bad_model_args sample_files).2 !! out bad_model_args
     <> sample_files !! out bad_model_args.
Proof. split; [vm_compute; reflexivity|]. vm_compute. discriminate. Qed.

(** C3, amended. If a request of the sequence cannot be encoded, [main]
    raises (UnicodeEncodeError) and the build stops there; the artifact is
    written to the final path itself, which is truncated when it is opened
    and holds, after the failure, the lines written before the request
    that failed. *)
Theorem build_writes_in_place
    (a : args) (fs : files) (text : pystr) (k : nat) (iu : Z * pystr) :
  fs !! urls a = Some text ->
  enumerate 1 (read_urls text) !! k = Some iu ->
  utf8_encodable (line_text a iu) = false ->
  Forall (fun iu => utf8_encodable (line_text a iu) = true)
         (take k (enumerate 1 (read_urls text))) ->
  main a fs
  = (Some UnicodeEncodeError,
     <[out a := concat (map (line_text a) (take k (enumerate 1 (read_urls text))))]> fs).
Proof.
  intros Htext Hk Hbad Hgood. unfold main. rewrite Htext.
  destruct (read_urls text) as [|u us] eqn:E; [done|].
  rewrite (write_lines_first_bad a _ [] k iu Hk Hbad Hgood). done.
Qed.

Lemma build_writes_in_place_witness :
  main bad_model_args sample_files
  = (Some UnicodeEncodeError, <[py "batch_input.jsonl" := []]> sample_files).
Proof.
  apply (build_writes_in_place bad_model_args sample_files
           (py "http://x/a.png" ++ [10] ++ py " http://x/b.png?v=2 " ++ [10])
           0 (1%Z, py "http://x/a.png")).
  - reflexivity.
  - reflexivity.
  - vm_compute. reflexivity.
  - constructor.
Defined.

(** C7. For a model name and targets that can be encoded, the build
    succeeds, and the artifact it writes has exactly one line per request,
    in the order of the input; [json.loads] reads each line back as the
    request it was written from: the line at position [k] carries the
    [custom_id] of index [k + 1] and the target at position [k]. *)
Theorem artifact_round_trip (a : args) (fs : files) (text : pystr) :
  fs !! urls a = Some text ->
  read_urls text <> [] ->
  utf8_encodable (model a) = true ->
  Forall (fun u => utf8_encodable u = true) (read_urls text) ->
  exists artifact,
    main a fs = (None, <[out a := artifact]> fs)
    /\ length (file_lines artifact) = length (read_urls text)
    /\ file_lines artifact = map dumps (requests a (read_urls text))
    /\ forall k u, read_urls text !! k = Some u ->
       exists line v,
         file_lines artifact !! k = Some line
         /\ loads line = Some v
         /\ v = make_request_line (1 + Z.of_nat k) u (model a) (temperature a)
         /\ line_custom_id v = Some (JStr (custom_id (1 + Z.of_nat k) u))
         /\ line_target v = Some (JStr u).
Proof.
  intros Htext Hne Hmodel Hurls.
  assert (Hlines : file_lines (concat (map (line_text a) (enumerate 1 (read_urls text))))
                   = map dumps (requests a (read_urls text))).
  { unfold requests.
    replace (map (line_text a) (enumerate 1 (read_urls text)))
      with (map (fun l => l ++ [10])
              (map (fun iu => dumps (make_request_line (fst iu) (snd iu)
                                       (model a) (temperature a)))
                   (enumerate 1 (read_urls text))))
      by (by rewrite map_map).
    rewrite file_lines_concat; [by rewrite map_map|].
    apply Forall_forall. intros l (iu & -> & _)%list_elem_of_fmap.
    apply printable_dumps. }
  exists (concat (map (line_text a) (enumerate 1 (read_urls text)))).
  split; [|rewrite Hlines;
           split; [by unfold requests; rewrite !length_map, length_enumerate|];
           split; [done|]].
  - unfold main. rewrite Htext.
    destruct (read_urls text) as [|u0 us] eqn:E; [done|]. rewrite <- E in *.
    rewrite write_lines_all; [done|].
    apply Forall_forall. intros [i u] Hiu. apply encodable_line; [done|].
    rewrite Forall_forall in Hurls. apply Hurls. simpl.
    by apply enumerate_snd in Hiu.
  - intros k u Hk.
    exists (dumps (make_request_line (1 + Z.of_nat k) u (model a) (temperature a))),
      (make_request_line (1 + Z.of_nat k) u (model a) (temperature a)).
    split; [|split; [|split; [done|split]]].
    + unfold requests. rewrite !list_lookup_fmap.
      by rewrite (enumerate_lookup 1 _ k u Hk).
    + apply loads_dumps, request_wf.
    + apply request_custom_id.
    + rewrite request_target. do 2 f_equal.
      apply (read_urls_stripped text). by eapply list_elem_of_lookup_2.
Qed.

Lemma artifact_round_trip_witness :
  exists artifact,
    main sample_args sample_files = (None, <[out sample_args := artifact]> sample_files)
    /\ length (file_lines artifact) = 2%nat.
Proof.
  destruct (artifact_round_trip sample_args sample_files
              (py "http://x/a.png" ++ [10] ++ py " http://x/b.png?v=2 " ++ [10]))
    as (artifact & H1 & H2 & _).
  - reflexivity.
  - vm_compute. discriminate.
  - reflexivity.
  - repeat constructor.
  - exists artifact. split; [exact H1|]. rewrite H2. reflexivity.
Defined.

End ArtifactProperties.

(** * The download phase *)
Section DownloadProperties.

Import run_batch.


(** What the download phase prints about the output artifact. *)
Lemma download_results_reports svc a batch_id b fs oid :
  truthy (output_file_id b) = Some oid ->
  utf8_valid (files_content svc oid) = true ->
  Print (py "Saved " ++ str_of_N (N.of_nat (count_lines (files_content svc oid)))
         ++ py " lines " ++ [8594; 32] ++ out_path a)
  ∈ (download_results svc a batch_id b fs).1.1.
Proof.
  intros Ho Hv. unfold download_results, save_file, n_lines. rewrite Ho. simpl.
  rewrite lookup_insert_eq. simpl. rewrite Hv. simpl.
  destruct (truthy (error_file_id b)); simpl; destruct (status b); simpl;
    rewrite !elem_of_cons; tauto.
Qed.

(** Without the directory of [--out] nothing is saved: the write raises
    once the artifact has been fetched. *)
Example download_without_directory :
  download_results_on no_directory_host one_result_service upload_args (py "batch-1")
    (batches_retrieve one_result_service (py "batch-1") 0) ∅
  = ([Print (py "Downloading output to batch_input_output.jsonl" ++ [32; 8230]);
      FilesContent (py "file-out")],
     Some (FileNotFoundError (py "batch_input_output.jsonl")), ∅).
Proof. reflexivity. Qed.




(** Where both paths can be opened, the download phase on the host is the
    download phase. *)
Lemma download_results_on_ready h svc a batch_id b fs :
  open_error h (out_path a) = None -> open_error h (err_path a) = None ->
  download_results_on h svc a batch_id b fs = download_results svc a batch_id b fs.
Proof.
  intros Ho He. unfold download_results_on, download_results, save_file_on.
  rewrite Ho, He. unfold save_file, n_lines.
  destruct (truthy (output_file_id b)); simpl.
  - rewrite lookup_insert_eq. simpl.
    destruct (utf8_valid _); simpl; [|done].
    destruct (truthy (error_file_id b)); simpl; by destruct (status b).
  - destruct (truthy (error_file_id b)); simpl; by destruct (status b).
Qed.



End DownloadProperties.




Section StripFacts.

Import generate_jsonl.

Lemma lstrip_app_stop a c b :
  isspace c = false -> lstrip (a ++ c :: b) = lstrip a ++ c :: b.
Proof.
  intros Hc. induction a as [|x a IH]; simpl.
  - by rewrite Hc.
  - destruct (isspace x); [exact IH|done].
Qed.

Lemma rstrip_app_stop a c b :
  isspace c = false -> rstrip (a ++ c :: b) = a ++ c :: rstrip b.
Proof.
  intros Hc. unfold rstrip.
  rewrite reverse_app, reverse_cons, <- app_assoc. simpl.
  rewrite lstrip_app_stop by done.
  rewrite reverse_app, reverse_cons, reverse_involutive, <- app_assoc. done.
Qed.

Lemma lstrip_elem c s : c ∈ lstrip s -> c ∈ s.
Proof.
  destruct (lstrip_suffix s) as [pre E]. intros H. rewrite E.
  apply elem_of_app. by right.
Qed.

Lemma before_first_app sep a b :
  sep ∉ a -> Spec.before_first sep (a ++ sep :: b) = a.
Proof.
  induction a as [|x a IH]; simpl; intros H.
  - by rewrite N.eqb_refl.
  - apply not_elem_of_cons in H as [Hx Ha].
    destruct (N.eqb_spec x sep); [done|]. by rewrite IH.
Qed.

Lemma before_first_none sep a : sep ∉ a -> Spec.before_first sep a = a.
Proof.
  induction a as [|x a IH]; simpl; intros H; [done|].
  apply not_elem_of_cons in H as [Hx Ha].
  destruct (N.eqb_spec x sep); [done|]. by rewrite IH.
Qed.

Lemma after_last_app sep a b :
  sep ∉ b -> Spec.after_last sep (a ++ sep :: b) = b.
Proof.
  intros H. unfold Spec.after_last.
  rewrite reverse_app, reverse_cons, <- app_assoc. simpl.
  rewrite before_first_app; [apply reverse_involutive|].
  by rewrite elem_of_reverse.
Qed.

Lemma after_last_none sep a : sep ∉ a -> Spec.after_last sep a = a.
Proof.
  intros H. unfold Spec.after_last.
  rewrite before_first_none; [apply reverse_involutive|].
  by rewrite elem_of_reverse.
Qed.

Lemma strip_rstrip s : strip s = s -> rstrip s = s.
Proof. intros H. rewrite <- H at 1. unfold strip. rewrite rstrip_idemp. exact H. Qed.

End StripFacts.

Section StemFacts.

Import generate_jsonl.

(** The stem of a URL is the stem of its file name. *)
Theorem safe_stem_from_url_file_name (p seg q : pystr) :
  63 ∉ p -> 63 ∉ seg -> 47 ∉ seg -> strip seg = seg ->
  safe_stem_from_url (p ++ 47 :: seg ++ 63 :: q) = safe_stem_from_url seg
  /\ safe_stem_from_url (p ++ 47 :: seg) = safe_stem_from_url seg.
Proof.
  intros Hp Hq Hs Hstrip.
  assert (Hlp : 63 ∉ lstrip p) by (intros H; by apply Hp, lstrip_elem).
  assert (Hseg : safe_stem_from_url seg
                 = take 60 (re_sub_unsafe (or_else seg (py "image")))).
  { unfold safe_stem_from_url.
    by rewrite Hstrip, first_split, final_split, before_first_none, after_last_none. }
  rewrite Hseg. unfold safe_stem_from_url, strip. split.
  - rewrite lstrip_app_stop by done.
    replace (lstrip p ++ 47 :: seg ++ 63 :: q)
      with ((lstrip p ++ 47 :: seg) ++ 63 :: q) by (by rewrite <- app_assoc).
    rewrite rstrip_app_stop by done.
    rewrite first_split, final_split.
    rewrite before_first_app.
    + by rewrite after_last_app.
    + rewrite elem_of_app, elem_of_cons. intros [?|[?|?]]; done.
  - rewrite lstrip_app_stop, rstrip_app_stop by done.
    rewrite (strip_rstrip _ Hstrip), first_split, final_split.
    rewrite before_first_none.
    + by rewrite after_last_app.
    + rewrite elem_of_app, elem_of_cons. intros [?|[?|?]]; done.
Qed.

Lemma safe_stem_from_url_file_name_witness :
  safe_stem_from_url (py "https://cdn.example/shots" ++ 47 :: py "a b.png" ++ 63 :: py "v=3")
  = safe_stem_from_url (py "a b.png").
Proof.
  apply (safe_stem_from_url_file_name (py "https://cdn.example/shots") (py "a b.png")
           (py "v=3")); try reflexivity;
    apply (bool_decide_unpack _); vm_compute; reflexivity.
Defined.

End StemFacts.

Section StemFixed.

Import generate_jsonl.

Lemma in_class_plain c :
  in_class c = true ->
  isspace c = false /\ c <> 63 /\ c <> 47 /\ c <> 10 /\ c <> 13.
Proof.
  rewrite in_class_is_allowed. unfold Spec.is_allowed.
  intros (y & Hy & Heq)%existsb_exists. apply N.eqb_eq in Heq as ->.
  assert (Hall : forallb (fun n => negb (isspace n) && negb (n =? 63) && negb (n =? 47)
                                 && negb (n =? 10) && negb (n =? 13))
                   Spec.allowed = true) by (vm_compute; reflexivity).
  rewrite forallb_forall in Hall. specialize (Hall y Hy).
  repeat (apply andb_prop in Hall as [Hall ?]).
  repeat match goal with
         | H : negb (_ =? _) = true |- _ => apply negb_true_iff, N.eqb_neq in H
         | H : negb _ = true |- _ => apply negb_true_iff in H
         end.
  done.
Qed.

Lemma in_class_sub c : in_class (if in_class c then c else 95) = true.
Proof. by destruct (in_class c) eqn:E. Qed.

Lemma strip_in_class s : Forall (fun c => in_class c = true) s -> strip s = s.
Proof.
  intros H. unfold strip.
  assert (Hl : forall t, Forall (fun c => in_class c = true) t -> lstrip t = t).
  { intros t Ht. apply lstrip_fixed. destruct Ht as [|c t Hc _]; [done|].
    simpl. by apply in_class_plain in Hc as [? _]. }
  rewrite (Hl s H). unfold rstrip. rewrite (Hl (reverse s)).
  - apply reverse_involutive.
  - by apply Forall_reverse.
Qed.

Lemma safe_stem_from_url_in_class url :
  safe_stem_from_url url <> []
  /\ (length (safe_stem_from_url url) <= 60)%nat
  /\ Forall (fun c => in_class c = true) (safe_stem_from_url url).
Proof.
  unfold safe_stem_from_url. set (stem := or_else _ _).
  assert (Hne : stem <> []).
  { subst stem. unfold or_else. by destruct (final _). }
  clearbody stem. repeat split.
  - destruct stem; [done|]. simpl. discriminate.
  - rewrite length_take. lia.
  - apply Forall_take. unfold re_sub_unsafe. apply Forall_fmap, Forall_forall.
    intros c _. apply in_class_sub.
Qed.

(** A name that is already safe is its own stem, so the stem of a stem is
    that stem. *)
Theorem safe_stem_from_url_fixed :
  (forall s : pystr,
      s <> [] -> (length s <= 60)%nat -> Forall (fun c => in_class c = true) s ->
      safe_stem_from_url s = s)
  /\ (forall url, safe_stem_from_url (safe_stem_from_url url) = safe_stem_from_url url).
Proof.
  assert (Hfix : forall s : pystr,
      s <> [] -> (length s <= 60)%nat -> Forall (fun c => in_class c = true) s ->
      safe_stem_from_url s = s).
  { intros s Hne Hlen Hs. unfold safe_stem_from_url.
    rewrite (strip_in_class s Hs), first_split, final_split.
    assert (H63 : 63 ∉ s).
    { intros Hin. rewrite Forall_forall in Hs.
      by apply Hs, in_class_plain in Hin as (_ & ? & _). }
    assert (H47 : 47 ∉ s).
    { intros Hin. rewrite Forall_forall in Hs.
      by apply Hs, in_class_plain in Hin as (_ & _ & ? & _). }
    rewrite before_first_none, after_last_none by done.
    unfold or_else. destruct s as [|c s]; [done|].
    rewrite take_ge by (unfold re_sub_unsafe; by rewrite length_map).
    unfold re_sub_unsafe. clear Hne Hlen H63 H47.
    induction Hs as [|x t Hx _ IH]; [done|]. simpl. by rewrite Hx, IH. }
  split; [exact Hfix|].
  intros url. destruct (safe_stem_from_url_in_class url) as (H1 & H2 & H3).
  by apply Hfix.
Qed.

Lemma safe_stem_from_url_fixed_witness :
  safe_stem_from_url (py "shot_01.final-v2.png") = py "shot_01.final-v2.png".
Proof.
  apply (proj1 safe_stem_from_url_fixed).
  - discriminate.
  - vm_compute. lia.
  - apply Forall_forall. intros c Hc.
    assert (Hall : forallb in_class (py "shot_01.final-v2.png") = true)
      by (vm_compute; reflexivity).
    rewrite forallb_forall in Hall. by apply Hall, list_elem_of_In.
Defined.

End StemFixed.


Section SchemaFacts.

Import generate_jsonl.

Lemma dict_set_keys {A} k (v : A) d :
  map fst (dict_set k v d)
  = if bool_decide (k ∈ map fst d) then map fst d else map fst d ++ [k].
Proof.
  induction d as [|[k' v'] d IH]; simpl; [done|].
  destruct (decide (k = k')) as [->|Hne]; simpl.
  - rewrite bool_decide_eq_true_2; [done|by left].
  - rewrite IH. destruct (bool_decide (k ∈ map fst d)) eqn:E.
    + apply bool_decide_eq_true_1 in E.
      rewrite bool_decide_eq_true_2; [done|by right].
    + apply bool_decide_eq_false_1 in E.
      rewrite bool_decide_eq_false_2; [done|].
      by intros [?|?]%elem_of_cons.
Qed.

Lemma dict_set_values {A} (P : A -> Prop) k v d :
  P v -> Forall (fun kv => P (snd kv)) d ->
  Forall (fun kv => P (snd kv)) (dict_set k v d).
Proof.
  intros Hv. induction 1 as [|[k' v'] d Hx Hd IH]; simpl.
  - by constructor.
  - destruct (decide (k = k')); constructor; done.
Qed.

Lemma dict_get_set {A} k (v : A) d : dict_get k (dict_set k v d) = Some v.
Proof.
  induction d as [|[k' v'] d IH]; simpl.
  - by destruct (decide (k = k)).
  - destruct (decide (k = k')) as [->|Hne]; simpl.
    + by destruct (decide (k' = k')).
    + by destruct (decide (k = k')).
Qed.

(** The properties the loop of [build_json_schema] builds from [acc]. *)
Lemma schema_props_keys dims : forall acc : list (pystr * json),
  NoDup (map fst acc) ->
  let props := fold_left (fun props d => dict_set d integer_schema props) dims acc in
  NoDup (map fst props)
  /\ (forall k, k ∈ map fst props <-> k ∈ map fst acc \/ k ∈ dims)
  /\ (NoDup (map fst acc ++ dims) -> map fst props = map fst acc ++ dims)
  /\ (Forall (fun kv => snd kv = integer_schema) acc ->
      Forall (fun kv => snd kv = integer_schema) props).
Proof.
  induction dims as [|d dims IH]; intros acc Hnd; simpl.
  - repeat split; try done.
    + by left.
    + intros [?|?%elem_of_nil]; done.
    + by rewrite app_nil_r.
  - assert (Hnd' : NoDup (map fst (dict_set d integer_schema acc))).
    { rewrite dict_set_keys. case_bool_decide; [done|].
      apply NoDup_app. repeat split; [done| |apply NoDup_singleton].
      intros x Hx Hs%list_elem_of_singleton. by subst. }
    destruct (IH _ Hnd') as (H1 & H2 & H3 & H4). repeat split.
    + exact H1.
    + intros Hk. apply H2 in Hk as [Hk|Hk]; [|right; by right].
      rewrite dict_set_keys in Hk. case_bool_decide; [by left|].
      apply elem_of_app in Hk as [?|Hs%list_elem_of_singleton]; [by left|].
      subst. right. by left.
    + intros [Hk|Hk]; apply H2.
      * left. rewrite dict_set_keys. case_bool_decide; [done|].
        apply elem_of_app. by left.
      * apply elem_of_cons in Hk as [->|Hk]; [|by right].
        left. rewrite dict_set_keys. case_bool_decide; [done|].
        apply elem_of_app. right. by left.
    + intros Hall. rewrite H3.
      * rewrite dict_set_keys. rewrite bool_decide_eq_false_2.
        -- by rewrite <- app_assoc.
        -- apply NoDup_app in Hall as (_ & Hdis & _). intros Hin.
           apply (Hdis d Hin). by left.
      * rewrite dict_set_keys. rewrite bool_decide_eq_false_2.
        -- by rewrite <- app_assoc.
        -- apply NoDup_app in Hall as (_ & Hdis & _). intros Hin.
           apply (Hdis d Hin). by left.
    + intros Hacc. apply H4.
      by apply (dict_set_values (fun v => v = integer_schema)).
Qed.

Lemma filter_not_in_app (K : list pystr) (d : pystr) (l : list pystr) :
  filter (fun k => k ∉ K ++ [d]) l = filter (fun k => k ∉ K) (filter (fun y => y <> d) l).
Proof.
  induction l as [|x l IH]; [done|].
  destruct (decide (x = d)) as [->|Hne].
  - rewrite (filter_cons_False (fun y => y <> d)) by (intros H; done).
    rewrite filter_cons_False; [done|].
    intros H. apply H, elem_of_app. right. by left.
  - rewrite (filter_cons_True (fun y => y <> d)) by done.
    destruct (decide (x ∈ K)) as [Hin|Hout].
    + rewrite !filter_cons_False; [done|by intros H|].
      intros H. apply H, elem_of_app. by left.
    + rewrite !filter_cons_True; [by rewrite IH|done|].
      intros [?|?%list_elem_of_singleton]%elem_of_app; done.
Qed.

(** The keys the loop of [build_json_schema] leaves, in order. *)
Lemma schema_props_order dims : forall acc : list (pystr * json),
  map fst (fold_left (fun props d => dict_set d integer_schema props) dims acc)
  = map fst acc ++ filter (fun k => k ∉ map fst acc) (first_occurrences dims).
Proof.
  induction dims as [|d dims IH]; intros acc.
  - simpl. by rewrite app_nil_r.
  - cbn [fold_left first_occurrences]. rewrite IH, dict_set_keys. case_bool_decide.
    + f_equal. rewrite filter_cons_False by (intros H'; done).
      apply eq_sym, list_filter_filter_l. by intros y Hy ->.
    + rewrite <- app_assoc. f_equal.
      rewrite filter_cons_True by done. cbn [app]. f_equal.
      apply filter_not_in_app.
Qed.

(** The schema lists every dimension once, at the place of its first
    occurrence, requires them all and allows nothing else. *)
Theorem build_json_schema_shape (dimensions : list pystr) :
  exists props : list (pystr * json),
    build_json_schema dimensions
    = JDict [(py "type", JStr (py "object"));
             (py "additionalProperties", JBool false);
             (py "properties", JDict props);
             (py "required", JList (map (fun kv => JStr (fst kv)) props))]
    /\ NoDup (map fst props)
    /\ (forall k, k ∈ map fst props <-> k ∈ dimensions)
    /\ Forall (fun kv => snd kv = integer_schema) props
    /\ (NoDup dimensions -> map fst props = dimensions)
    /\ map fst props = first_occurrences dimensions
    /\ json_wf (build_json_schema dimensions).
Proof.
  destruct (schema_props_keys dimensions [] (NoDup_nil_2)) as (H1 & H2 & H3 & H4).
  eexists. split; [reflexivity|]. split; [exact H1|]. split; [|split; [|split; [|split]]].
  - intros k. rewrite H2. split; [intros [?%elem_of_nil|?]; done|by right].
  - by apply H4.
  - intros Hnd. by apply H3.
  - rewrite schema_props_order. cbn [map app].
    induction (first_occurrences dimensions) as [|x l IH]; [done|].
    rewrite filter_cons_True by apply not_elem_of_nil. by rewrite IH.
  - change (build_json_schema dimensions)
      with (JDict [(py "type", JStr (py "object"));
                   (py "additionalProperties", JBool false);
                   (py "properties",
                    JDict (fold_left (fun props d => dict_set d integer_schema props)
                                     dimensions []));
                   (py "required",
                    JList (map (fun kv => JStr (fst kv))
                             (fold_left (fun props d => dict_set d integer_schema props)
                                        dimensions [])))]).
    set (props := fold_left _ dimensions []) in *.
    assert (Hv : Forall (fun kv => snd kv = integer_schema) props) by by apply H4.
    simpl. split; [apply (bool_decide_unpack _); vm_compute; reflexivity|].
    repeat split; try done.
    + clear -Hv. induction Hv as [|[k v] d Hx _ IH]; [done|].
      simpl in *. subst v. split; [|done]. simpl.
      split; [apply (bool_decide_unpack _); vm_compute; reflexivity|done].
    + clear. induction props; simpl; done.
Qed.

Lemma build_json_schema_shape_witness :
  exists props : list (pystr * json),
    get_key "properties" (build_json_schema DIMENSIONS) = Some (JDict props)
    /\ map fst props = DIMENSIONS.
Proof.
  destruct (build_json_schema_shape DIMENSIONS) as (props & E & _ & _ & _ & H & _ & _).
  exists props. split.
  - rewrite E. reflexivity.
  - apply H. apply (bool_decide_unpack _). vm_compute. reflexivity.
Defined.

End SchemaFacts.


Section DigitValues.

Import generate_jsonl.

Lemma of_lu_revapp_digits l : forall acc,
  DecimalPos.Unsigned.of_lu (Decimal.revapp (digits_uint l) acc) = digits_val (DecimalPos.Unsigned.of_lu acc) l.
Proof.
  induction l as [|d l IH]; intros acc; [done|].
  destruct d; simpl; rewrite IH; reflexivity.
Qed.

Lemma N_of_digits_val l : N_of_digits l = digits_val 0 l.
Proof.
  unfold N_of_digits, N.of_uint. rewrite DecimalPos.Unsigned.of_uint_alt.
  unfold Decimal.rev. by rewrite of_lu_revapp_digits.
Qed.

Lemma digit_val_lt d : digit_val d < 10.
Proof. destruct d; simpl; lia. Qed.

Lemma digits_val_bounds l : forall acc,
  acc * 10 ^ N.of_nat (length l) <= digits_val acc l
  /\ digits_val acc l < (acc + 1) * 10 ^ N.of_nat (length l).
Proof.
  induction l as [|d l IH]; intros acc.
  - simpl. lia.
  - change (digits_val acc (d :: l)) with (digits_val (digit_val d + 10 * acc) l).
    destruct (IH (digit_val d + 10 * acc)) as [Hlo Hhi].
    pose proof (digit_val_lt d) as Hd.
    replace (N.of_nat (length (d :: l))) with (N.succ (N.of_nat (length l)))
      by (simpl length; lia).
    rewrite N.pow_succ_r'. set (p := 10 ^ N.of_nat (length l)) in *.
    split; nia.
Qed.

(** The digits of a number below [10 ^ k] are at most [k]; those of a
    number from [10 ^ k] on are more than [k]. *)
Lemma str_digits_length n k :
  let l := uint_digits (N.to_uint n) in
  (n < 10 ^ N.of_nat k -> (0 < k)%nat -> (length l <= k)%nat)
  /\ (10 ^ N.of_nat k <= n -> (k < length l)%nat).
Proof.
  intros l. subst l.
  pose proof (N_of_str_digits n) as Hn. rewrite N_of_digits_val in Hn.
  split.
  - intros Hlt Hk.
    destruct (str_digits_cases n) as [[_ E]|(d & t & E & Hd)]; rewrite E in *.
    + simpl. lia.
    + change (digits_val 0 (d :: t)) with (digits_val (digit_val d + 10 * 0) t) in Hn.
      destruct (digits_val_bounds t (digit_val d + 10 * 0)) as [Hlo _].
      assert (Hdv : 1 <= digit_val d) by (destruct d; simpl; (done || lia)).
      destruct (Nat.le_gt_cases (length (d :: t)) k) as [|Hgt]; [done|exfalso].
      assert (Hpow : 10 ^ N.of_nat k <= 10 ^ N.of_nat (length t)).
      { apply N.pow_le_mono_r; [lia|]. simpl in Hgt. lia. }
      nia.
  - intros Hge.
    destruct (digits_val_bounds (uint_digits (N.to_uint n)) 0) as [_ Hhi].
    destruct (Nat.lt_ge_cases k (length (uint_digits (N.to_uint n)))) as [|Hle];
      [done|exfalso].
    assert (Hpow : 10 ^ N.of_nat (length (uint_digits (N.to_uint n))) <= 10 ^ N.of_nat k).
    { apply N.pow_le_mono_r; lia. }
    lia.
Qed.

Lemma length_format_05d z :
  (0 <= z)%Z ->
  length (format_05d z) = Nat.max 5 (length (uint_digits (N.to_uint (Z.to_N z)))).
Proof.
  intros Hz. rewrite format_05d_digits by done. unfold index_digits, digits_str.
  rewrite length_map, length_app, length_replicate. lia.
Qed.

End DigitValues.

Section IdentifierShape.

Import generate_jsonl.

Lemma in_class_digits l : Forall (fun c => in_class c = true) (digits_str l).
Proof. induction l as [|d l IH]; constructor; [by destruct d|done]. Qed.

Lemma in_class_format_05d z : Forall (fun c => in_class c = true) (format_05d z).
Proof.
  unfold format_05d, str_of_N.
  destruct z; rewrite ?zfill_digits; try apply in_class_digits.
  constructor; [done|]. apply in_class_digits.
Qed.

(** The identifier is made of characters of [[A-Za-z0-9._-]] only; up to
    index 99999 the index takes five digits and the identifier at most 69
    characters; from 100000 on the index is not cut, it takes more
    digits. *)
Theorem custom_id_shape (idx : Z) (url : pystr) :
  Forall (fun c => in_class c = true) (custom_id idx url)
  /\ ((0 <= idx < 100000)%Z ->
      length (format_05d idx) = 5%nat
      /\ (10 <= length (custom_id idx url) <= 69)%nat)
  /\ ((100000 <= idx)%Z -> (5 < length (format_05d idx))%nat).
Proof.
  destruct (safe_stem_from_url_in_class url) as (Hne & Hlen & Hcls).
  split; [|split].
  - unfold custom_id. repeat (apply Forall_app; split); try done.
    + by repeat constructor.
    + apply in_class_format_05d.
    + by repeat constructor.
  - intros [H0 H1].
    destruct (str_digits_length (Z.to_N idx) 5) as [Hw _].
    assert (Hfive : length (format_05d idx) = 5%nat).
    { rewrite length_format_05d by done.
      assert ((length (uint_digits (N.to_uint (Z.to_N idx))) <= 5)%nat)
        by (apply Hw; [simpl; lia|lia]).
      lia. }
    split; [done|]. unfold custom_id. rewrite !length_app, Hfive. simpl.
    destruct (safe_stem_from_url url); [done|]. simpl in *. lia.
  - intros H1.
    destruct (str_digits_length (Z.to_N idx) 5) as [_ Hw].
    rewrite length_format_05d by lia.
    assert ((5 < length (uint_digits (N.to_uint (Z.to_N idx))))%nat)
      by (apply Hw; simpl; lia).
    lia.
Qed.

Lemma custom_id_shape_witness :
  length (format_05d 42) = 5%nat
  /\ (10 <= length (custom_id 42 (py "http://x/a.png")) <= 69)%nat.
Proof. apply (proj1 (proj2 (custom_id_shape 42 (py "http://x/a.png")))). lia. Defined.

End IdentifierShape.


Section IdentifierOrder.

Import generate_jsonl.

Lemma digit_char_val d : digit_char d = 48 + digit_val d.
Proof. by destruct d. Qed.

Lemma digit_val_inj d e : digit_val d = digit_val e -> d = e.
Proof. destruct d, e; simpl; (done || lia). Qed.

(** Two runs of digits of one length compare as their values do, whatever
    follows them. *)
Lemma str_lt_digits l1 : forall l2 acc s t,
  length l1 = length l2 ->
  digits_val acc l1 < digits_val acc l2 ->
  str_lt (digits_str l1 ++ s) (digits_str l2 ++ t) = true.
Proof.
  induction l1 as [|d1 l1 IH]; intros [|d2 l2] acc s t Hlen Hlt; try done.
  - simpl in Hlt. lia.
  - injection Hlen as Hlen.
    change (digits_val acc (d1 :: l1)) with (digits_val (digit_val d1 + 10 * acc) l1) in Hlt.
    change (digits_val acc (d2 :: l2)) with (digits_val (digit_val d2 + 10 * acc) l2) in Hlt.
    simpl. rewrite !digit_char_val.
    destruct (N.lt_trichotomy (digit_val d1) (digit_val d2)) as [H|[H|H]].
    + rewrite (proj2 (N.ltb_lt _ _)) by lia. done.
    + apply digit_val_inj in H as ->. rewrite N.ltb_irrefl, N.eqb_refl. simpl.
      by apply (IH l2 (digit_val d2 + 10 * acc)).
    + exfalso.
      destruct (digits_val_bounds l1 (digit_val d1 + 10 * acc)) as [Hlo _].
      destruct (digits_val_bounds l2 (digit_val d2 + 10 * acc)) as [_ Hhi].
      rewrite Hlen in Hlo. set (p := 10 ^ N.of_nat (length l2)) in *. nia.
Qed.

Lemma index_digits_val z : (0 <= z)%Z -> digits_val 0 (index_digits z) = Z.to_N z.
Proof.
  intros Hz. rewrite <- N_of_digits_val. unfold index_digits.
  by rewrite N_of_digits_zeros, N_of_str_digits.
Qed.

Lemma index_digits_length z :
  (0 <= z < 100000)%Z -> length (index_digits z) = 5%nat.
Proof.
  intros Hz. pose proof (length_format_05d z (proj1 Hz)) as H.
  rewrite format_05d_digits in H by lia. unfold digits_str in H.
  rewrite length_map in H. rewrite H.
  destruct (str_digits_length (Z.to_N z) 5) as [Hw _].
  assert ((length (uint_digits (N.to_uint (Z.to_N z))) <= 5)%nat)
    by (apply Hw; [simpl; lia|lia]).
  lia.
Qed.

(** Up to index 99999 the identifiers sort as the indices do, whatever
    the targets; the padding does not reach further: the identifier of
    index 100000 sorts before that of index 99999. *)
Theorem custom_id_sorted (i j : Z) (u v : pystr) :
  ((0 <= i < j)%Z -> (j < 100000)%Z -> str_lt (custom_id i u) (custom_id j v) = true)
  /\ str_lt (custom_id 100000 u) (custom_id 99999 v) = true.
Proof.
  split; [|reflexivity].
  intros Hij Hj. unfold custom_id.
  rewrite !format_05d_digits by lia.
  change (str_lt (py "ui-" ++ ?s) (py "ui-" ++ ?t)) with (str_lt s t).
  apply (str_lt_digits _ _ 0).
  - by rewrite !index_digits_length by lia.
  - rewrite !index_digits_val by lia. lia.
Qed.

Lemma custom_id_sorted_witness :
  str_lt (custom_id 9 (py "http://x/z.png")) (custom_id 10 (py "http://x/a.png")) = true.
Proof.
  apply (proj1 (custom_id_sorted 9 10 (py "http://x/z.png") (py "http://x/a.png"))); lia.
Defined.

End IdentifierOrder.


Section SplitlinesFacts.

Import generate_jsonl.

Lemma splitlines_crlf s : splitlines (13 :: 10 :: s) = [] :: splitlines s.
Proof. reflexivity. Qed.

Lemma splitlines_cons c s :
  c <> 13 ->
  splitlines (c :: s)
  = if is_linebreak c then [] :: splitlines s
    else match splitlines s with
         | l :: ls => (c :: l) :: ls
         | [] => [[c]]
         end.
Proof.
  intros Hc.
  destruct c as [|p]; [reflexivity|].
  destruct p as [p|p|]; [|reflexivity|reflexivity].
  destruct p as [p|p|]; [reflexivity| |reflexivity].
  destruct p as [p|p|]; [|reflexivity|reflexivity].
  destruct p as [p|p|]; [reflexivity|reflexivity|done].
Qed.

Lemma splitlines_cr c s :
  c <> 10 -> splitlines (13 :: c :: s) = [] :: splitlines (c :: s).
Proof.
  intros Hc.
  destruct c as [|p]; [reflexivity|].
  destruct p as [p|p|]; [reflexivity| |reflexivity].
  destruct p as [p|p|]; [|reflexivity|reflexivity].
  destruct p as [p|p|]; [reflexivity| |reflexivity].
  destruct p as [p|p|]; [reflexivity|reflexivity|done].
Qed.

Lemma splitlines_line l rest :
  Forall (fun c => is_linebreak c = false) l ->
  splitlines (l ++ 10 :: rest) = l :: splitlines rest.
Proof.
  induction 1 as [|c l Hc _ IH].
  - rewrite app_nil_l. by rewrite splitlines_cons.
  - rewrite <- app_comm_cons.
    rewrite splitlines_cons by (by intros ->). by rewrite Hc, IH.
Qed.

Lemma splitlines_lines (ls : list pystr) :
  Forall (Forall (fun c => is_linebreak c = false)) ls ->
  splitlines (concat (map (fun l => l ++ [10]) ls)) = ls.
Proof.
  induction 1 as [|l ls Hl _ IH]; [done|].
  simpl. rewrite <- app_assoc. simpl. by rewrite splitlines_line, IH.
Qed.

(** The lines are made of characters of the text. *)
Lemma splitlines_chars n : forall text,
  (length text <= n)%nat ->
  Forall (Forall (fun c => c ∈ text)) (splitlines text).
Proof.
  induction n as [|n IH]; intros text Hn.
  - destruct text; [constructor|simpl in Hn; lia].
  - destruct text as [|c s]; [constructor|]. simpl in Hn.
    assert (Hs : Forall (Forall (fun x => x ∈ c :: s)) (splitlines s)).
    { eapply Forall_impl; [apply IH; lia|]. intros l Hl.
      eapply Forall_impl; [exact Hl|]. intros x Hx. by right. }
    destruct (N.eq_dec c 13) as [->|Hc].
    + destruct s as [|c2 s]; [by repeat constructor|].
      destruct (N.eq_dec c2 10) as [->|Hc2].
      * rewrite splitlines_crlf. constructor; [constructor|].
        eapply Forall_impl; [apply IH; simpl in Hn; lia|]. intros l Hl.
        eapply Forall_impl; [exact Hl|]. intros x Hx. right. by right.
      * rewrite splitlines_cr by done. constructor; [constructor|done].
    + rewrite splitlines_cons by done. destruct (is_linebreak c).
      * constructor; [constructor|done].
      * destruct (splitlines s) as [|l ls]; [by repeat constructor; left|].
        apply Forall_cons in Hs as [Hl Hls]. constructor; [|done].
        constructor; [by left|done].
Qed.

Lemma lstrip_spaces s : Forall (fun c => isspace c = true) s -> lstrip s = [].
Proof. induction 1 as [|c s Hc _ IH]; [done|]. simpl. by rewrite Hc. Qed.

Lemma strip_spaces s : Forall (fun c => isspace c = true) s -> strip s = [].
Proof. intros H. unfold strip. by rewrite lstrip_spaces. Qed.

Lemma read_urls_blank text :
  Forall (fun c => isspace c = true) text -> read_urls text = [].
Proof.
  intros Hws. unfold read_urls.
  pose proof (splitlines_chars (length text) text (le_n _)) as Hl.
  induction Hl as [|l ls Hx _ IH]; [done|].
  rewrite filter_cons. rewrite decide_False; [exact IH|].
  intros Hne. apply Hne, strip_spaces.
  eapply Forall_impl; [exact Hx|]. intros c Hc.
  rewrite Forall_forall in Hws. by apply Hws.
Qed.

Lemma strip_clean_ends s : clean_left (strip s) /\ clean_left (reverse (strip s)).
Proof.
  split.
  - apply rstrip_clean, lstrip_clean.
  - unfold strip, rstrip. rewrite reverse_involutive. apply lstrip_clean.
Qed.

End SplitlinesFacts.

Section UrlFacts.

Import generate_jsonl.

(** The targets read from the URL file. *)
Theorem read_urls_clean :
  (forall text,
      Forall (fun u => u <> [] /\ strip u = u
                       /\ clean_left u /\ clean_left (reverse u)) (read_urls text))
  /\ (forall ls : list pystr,
        Forall (Forall (fun c => is_linebreak c = false)) ls ->
        read_urls (concat (map (fun l => l ++ [10]) ls))
        = map strip (filter (fun l => strip l <> []) ls)).
Proof.
  split.
  - intros text. unfold read_urls. apply Forall_forall.
    intros u (ln & -> & Hln)%list_elem_of_fmap.
    apply list_elem_of_filter in Hln as [Hne _].
    split; [done|]. split; [apply strip_idemp|]. apply strip_clean_ends.
  - intros ls Hls. unfold read_urls. by rewrite splitlines_lines.
Qed.

Lemma read_urls_clean_witness :
  read_urls (concat (map (fun l => l ++ [10])
                       [py " http://x/a.png "; py "   "; py "http://x/b.png?v=2"]))
  = [py "http://x/a.png"; py "http://x/b.png?v=2"].
Proof.
  rewrite (proj2 read_urls_clean).
  - reflexivity.
  - repeat constructor.
Defined.

End UrlFacts.

Section BuildFacts.

Import generate_jsonl.

Lemma write_lines_error a items f e :
  (write_lines a items f).1 = Some e -> e = UnicodeEncodeError.
Proof.
  revert f. induction items as [|[i u] items IH]; intros f; simpl; [done|].
  destruct (utf8_encodable _); [apply IH|]. by intros [= <-].
Qed.

(** With no target to encode, [main] stops before it opens the output. *)
Theorem main_without_targets (a : args) (fs : files) :
  (fs !! urls a = None -> main a fs = (Some (FileNotFoundError (urls a)), fs))
  /\ (forall text,
        fs !! urls a = Some text -> Forall (fun c => isspace c = true) text ->
        main a fs = (Some (SystemExit (py "No URLs found.")), fs)).
Proof.
  split.
  - intros H. unfold main. by rewrite H.
  - intros text H Hws. unfold main. by rewrite H, read_urls_blank.
Qed.

Lemma main_without_targets_witness :
  main sample_args {[ py "urls.txt" := [32; 10; 13; 10; 9; 10] ]}
  = (Some (SystemExit (py "No URLs found.")), {[ py "urls.txt" := [32; 10; 13; 10; 9; 10] ]}).
Proof.
  apply (proj2 (main_without_targets sample_args {[ py "urls.txt" := [32; 10; 13; 10; 9; 10] ]})
           [32; 10; 13; 10; 9; 10]).
  - reflexivity.
  - repeat constructor.
Defined.

(** [main] changes no file but the output: a run that raises
    FileNotFoundError or SystemExit has changed none, and a run that
    returns or raises UnicodeEncodeError had a URL file to read and has
    changed the output only. *)
Theorem main_changes_only_output (a : args) (fs : files) :
  (forall p, p <> out a -> (main a fs).2 !! p = fs !! p)
  /\ (forall p, (main a fs).1 = Some (FileNotFoundError p) -> (main a fs).2 = fs)
  /\ (forall msg, (main a fs).1 = Some (SystemExit msg) -> (main a fs).2 = fs)
  /\ ((main a fs).1 = None \/ (main a fs).1 = Some UnicodeEncodeError ->
      is_Some (fs !! urls a)
      /\ exists text, (main a fs).2 = <[out a := text]> fs).
Proof.
  unfold main. destruct (fs !! urls a) as [text|] eqn:E.
  2: { simpl. split; [done|]. split; [done|]. split; [done|]. by intros [|]. }
  destruct (read_urls text) as [|u us].
  { simpl. split; [done|]. split; [done|]. split; [done|]. by intros [|]. }
  pose proof (write_lines_error a (enumerate 1 (u :: us)) []) as He.
  destruct (write_lines a (enumerate 1 (u :: us)) []) as [e f]. simpl in *.
  split; [|split; [|split]].
  - intros p Hp. by rewrite lookup_insert_ne.
  - intros p ->. by specialize (He _ eq_refl).
  - intros msg ->. by specialize (He _ eq_refl).
  - intros _. split; [by eexists|by exists f].
Qed.

Lemma main_changes_only_output_witness :
  (main sample_args sample_files).2 !! py "urls.txt" = sample_files !! py "urls.txt".
Proof.
  apply (proj1 (main_changes_only_output sample_args sample_files)).
  vm_compute. discriminate.
Defined.

(** A second run over the same files changes nothing more. *)
Theorem main_idempotent (a : args) (fs : files) :
  out a <> urls a -> main a (main a fs).2 = main a fs.
Proof.
  intros Hne. unfold main at 2 3. destruct (fs !! urls a) as [text|] eqn:E.
  - destruct (read_urls text) as [|u us] eqn:Eu.
    + simpl. unfold main. by rewrite E, Eu.
    + destruct (write_lines a (enumerate 1 (u :: us)) []) as [e f] eqn:Ew. simpl.
      unfold main. rewrite lookup_insert_ne, E, Eu, Ew by done.
      by rewrite insert_insert_eq.
  - simpl. unfold main. by rewrite E.
Qed.

Lemma main_idempotent_witness :
  main sample_args (main sample_args sample_files).2 = main sample_args sample_files.
Proof. apply main_idempotent. vm_compute. discriminate. Defined.

Lemma write_lines_app a xs ys f :
  write_lines a (xs ++ ys) f
  = match write_lines a xs f with
    | (None, f') => write_lines a ys f'
    | r => r
    end.
Proof.
  revert f. induction xs as [|[i u] xs IH]; intros f; [done|].
  rewrite <- app_comm_cons. cbn [write_lines].
  destruct (utf8_encodable _); [apply IH|done].
Qed.

Lemma enumerate_app {A} start (l k : list A) :
  enumerate start (l ++ k)
  = enumerate start l ++ enumerate (start + Z.of_nat (length l)) k.
Proof.
  revert start. induction l as [|x l IH]; intros start.
  - simpl. by rewrite Z.add_0_r.
  - rewrite <- app_comm_cons. cbn [enumerate length]. rewrite IH, <- app_comm_cons.
    by replace (start + Z.of_nat (S (length l)))%Z
      with (start + 1 + Z.of_nat (length l))%Z by lia.
Qed.

(** Targets added after the others leave the lines of the others as they
    were: when a run succeeds on a list of targets, a run on that list
    with more targets after it writes the same lines first, then one line
    for each new target up to the first that cannot be encoded. *)
Theorem main_extends (a : args) (fs fs' : files) (text text' : pystr)
    (more : list pystr) :
  fs !! urls a = Some text ->
  fs' !! urls a = Some text' ->
  read_urls text' = read_urls text ++ more ->
  (main a fs).1 = None ->
  exists old new,
    (main a fs).2 !! out a = Some old
    /\ (main a fs').2 !! out a = Some (old ++ new)
    /\ write_lines a (enumerate (1 + Z.of_nat (length (read_urls text))) more) []
       = ((main a fs').1, new).
Proof.
  intros E E' Hmore Hok. unfold main in *. rewrite E in Hok |- *. rewrite E', Hmore.
  destruct (read_urls text) as [|u us] eqn:Eu; [done|].
  rewrite <- app_comm_cons, app_comm_cons, enumerate_app, write_lines_app.
  pose proof (write_lines_none a (enumerate 1 (u :: us)) []) as Hnone.
  destruct (write_lines a (enumerate 1 (u :: us)) []) as [e old]. simpl in Hok. subst e.
  set (items := enumerate (1 + Z.of_nat (length (u :: us))) more).
  assert (Hshift : forall f,
    write_lines a items (old ++ f)
    = ((write_lines a items f).1, old ++ (write_lines a items f).2)).
  { generalize items. intros l. induction l as [|[i x] l IH]; intros f; [done|].
    cbn [write_lines]. destruct (utf8_encodable _); [|done].
    by rewrite <- app_assoc, IH. }
  specialize (Hshift []). rewrite app_nil_r in Hshift. rewrite Hshift.
  exists old, (write_lines a items []).2. simpl.
  rewrite !lookup_insert_eq. split; [done|]. split; [done|].
  by destruct (write_lines a items []).
Qed.

Lemma main_extends_witness :
  exists old new,
    (main sample_args sample_files).2 !! out sample_args = Some old
    /\ (main sample_args
          (<[py "urls.txt" := py "http://x/a.png" ++ [10] ++ py "http://x/b.png?v=2"
                              ++ [10] ++ py "http://x/c.png" ++ [10]]> sample_files)).2
       !! out sample_args = Some (old ++ new)
    /\ write_lines sample_args
         (enumerate (1 + Z.of_nat (length (read_urls
            (py "http://x/a.png" ++ [10] ++ py " http://x/b.png?v=2 " ++ [10]))))
            [py "http://x/c.png"]) []
       = ((main sample_args
            (<[py "urls.txt" := py "http://x/a.png" ++ [10] ++ py "http://x/b.png?v=2"
                                ++ [10] ++ py "http://x/c.png" ++ [10]]> sample_files)).1,
          new).
Proof.
  apply (main_extends sample_args sample_files _
           (py "http://x/a.png" ++ [10] ++ py " http://x/b.png?v=2 " ++ [10])
           (py "http://x/a.png" ++ [10] ++ py "http://x/b.png?v=2"
              ++ [10] ++ py "http://x/c.png" ++ [10])
           [py "http://x/c.png"]); vm_compute; reflexivity.
Defined.

End BuildFacts.


Section MainFacts.

Import run_batch.

Lemma main_phases svc a fuel fs :
  main svc a fuel fs
  = match start_phase svc a fs with
    | (evs0, Returns (batch_id, n)) =>
        match poll_loop fuel svc batch_id (poll a) n with
        | (evs1, Returns b) =>
            let '(evs2, e, fs') := download_results svc a batch_id b fs in
            (evs0 ++ evs1 ++ evs2,
             match e with Some e => Raises e | None => Returns () end, fs')
        | (evs1, Raises e) => (evs0 ++ evs1, Raises e, fs)
        | (evs1, OutOfFuel) => (evs0 ++ evs1, OutOfFuel, fs)
        end
    | (evs0, Raises e) => (evs0, Raises e, fs)
    | (evs0, OutOfFuel) => (evs0, OutOfFuel, fs)
    end.
Proof. reflexivity. Qed.







(** On a host with a key where both paths can be opened, [main_on] is
    [main]. *)
Lemma main_on_ready h svc a fuel fs :
  client_error h = None ->
  open_error h (out_path a) = None -> open_error h (err_path a) = None ->
  main_on h svc a fuel fs = main svc a fuel fs.
Proof.
  intros Hc Ho He. rewrite main_phases. unfold main_on. rewrite Hc.
  destruct (start_phase svc a fs) as [evs0 [[batch_id n]|e0|]]; [|done|done].
  destruct (poll_loop fuel svc batch_id (poll a) n) as [evs1 [b|e1|]]; [|done|done].
  by rewrite download_results_on_ready.
Qed.



End MainFacts.

Section MainProperties.

Import run_batch.





(** With an interval that [time.sleep] rejects, the run ends at the first
    status that is not terminal, after its progress line: with ValueError
    for a negative interval down to -9223372036, with OverflowError for an
    interval of 9223372037 or more, or of -9223372037 or less; nothing is
    downloaded and no file is written. *)
Theorem main_rejected_interval
    (h : host) (svc : service) (a : args) (fuel : nat) (fs : files)
    (evs0 : list event) (batch_id : pystr) (n : nat) :
  client_error h = None ->
  start_phase svc a fs = (evs0, Returns (batch_id, n)) ->
  (poll a < 0)%Z \/ (9223372037 <= poll a)%Z ->
  is_terminal (status_of (batches_retrieve svc batch_id n)) = false ->
  main_on h svc a (S fuel) fs
  = (evs0 ++ [Retrieve batch_id; Print (progress (batches_retrieve svc batch_id n))],
     Raises (if (9223372037 <=? Z.abs (poll a))%Z then OverflowError else sleep_error),
     fs).
Proof.
  intros Hc Hs Hp Ht. unfold main_on. rewrite Hc, Hs.
  rewrite (poll_loop_bad_sleep _ _ _ _ _
             (if (9223372037 <=? Z.abs (poll a))%Z then OverflowError else sleep_error));
    [done|done|].
  unfold time_sleep, sleep_limit.
  destruct (Z.leb_spec 9223372037 (Z.abs (poll a))); [done|].
  destruct (Z.ltb_spec (poll a) 0); [done|lia].
Qed.

Lemma main_rejected_interval_witness :
  main_on ready_host slow_service negative_poll_args 5 ∅
  = ([Print (py "Resuming batch batch-1" ++ [32; 8230]); Retrieve (py "batch-1");
      Retrieve (py "batch-1"); Print (py "[in_progress]")],
     Raises sleep_error, ∅).
Proof.
  refine (main_rejected_interval ready_host slow_service negative_poll_args 4 ∅
            [Print (py "Resuming batch batch-1" ++ [32; 8230]); Retrieve (py "batch-1")]
            (py "batch-1") 1 eq_refl eq_refl _ eq_refl).
  left. reflexivity.
Defined.



End MainProperties.


Section LineCount.

Import run_batch.

Lemma count_lines_crlf s : count_lines (13 :: 10 :: s) = S (count_lines s).
Proof. reflexivity. Qed.

Lemma count_lines_cons c s :
  c <> 13 ->
  count_lines (c :: s)
  = if (c =? 10) || (c =? 13) then S (count_lines s)
    else match s with [] => 1%nat | _ => count_lines s end.
Proof.
  intros Hc.
  destruct c as [|p]; [reflexivity|].
  destruct p as [p|p|]; [|reflexivity|reflexivity].
  destruct p as [p|p|]; [reflexivity| |reflexivity].
  destruct p as [p|p|]; [|reflexivity|reflexivity].
  destruct p as [p|p|]; [reflexivity|reflexivity|done].
Qed.

Lemma count_lines_plain c s :
  c <> 10 -> c <> 13 ->
  count_lines (c :: s) = match s with [] => 1%nat | _ => count_lines s end.
Proof.
  intros H10 H13. rewrite count_lines_cons by done.
  by rewrite (proj2 (N.eqb_neq c 10)), (proj2 (N.eqb_neq c 13)).
Qed.

(** A line and its end. *)
Lemma count_lines_lf l rest :
  Forall (fun c => c <> 10 /\ c <> 13) l ->
  count_lines (l ++ 10 :: rest) = S (count_lines rest).
Proof.
  induction 1 as [|c l [H10 H13] Hl IH].
  - rewrite app_nil_l. by rewrite count_lines_cons.
  - rewrite <- app_comm_cons, count_lines_plain by done.
    rewrite <- IH. by destruct l.
Qed.

Lemma count_lines_crlf_end l rest :
  Forall (fun c => c <> 10 /\ c <> 13) l ->
  count_lines (l ++ 13 :: 10 :: rest) = S (count_lines rest).
Proof.
  induction 1 as [|c l [H10 H13] Hl IH].
  - rewrite app_nil_l. apply count_lines_crlf.
  - rewrite <- app_comm_cons, count_lines_plain by done.
    rewrite <- IH. by destruct l.
Qed.

Lemma count_lines_last l :
  l <> [] -> Forall (fun c => c <> 10 /\ c <> 13) l -> count_lines l = 1%nat.
Proof.
  intros Hne H. induction H as [|c l [H10 H13] Hl IH]; [done|].
  rewrite count_lines_plain by done. destruct l; [done|]. by apply IH.
Qed.

Lemma count_lines_concat (ls : list bytes) rest :
  Forall (Forall (fun c => c <> 10 /\ c <> 13)) ls ->
  count_lines (concat (map (fun l => l ++ [10]) ls) ++ rest)
  = (length ls + count_lines rest)%nat.
Proof.
  induction 1 as [|l ls Hl _ IH]; [done|].
  simpl concat. rewrite <- !app_assoc. simpl app at 2.
  rewrite count_lines_lf by done. rewrite IH. simpl. lia.
Qed.

Lemma utf8_valid_ascii s : is_ascii s = true -> utf8_valid s = true.
Proof.
  induction s as [|c s IH]; [done|]. intros [Hc Hs]%andb_prop.
  cbn [utf8_valid]. rewrite Hc. by apply IH.
Qed.

(** The number of lines [main] reports for an artifact of [k] lines that
    each end in LF is [k], and one more when text follows the last LF. *)
Theorem n_lines_of_lines (ls : list bytes) (last : bytes) :
  Forall (Forall (fun c => c <> 10 /\ c <> 13)) ls ->
  Forall (fun c => c <> 10 /\ c <> 13) last ->
  utf8_valid (concat (map (fun l => l ++ [10]) ls) ++ last) = true ->
  n_lines (concat (map (fun l => l ++ [10]) ls) ++ last)
  = inr (length ls + (if decide (last = []) then 0 else 1))%nat.
Proof.
  intros Hls Hlast Hv. unfold n_lines. rewrite Hv. f_equal.
  rewrite count_lines_concat by done. f_equal.
  destruct (decide (last = [])) as [->|Hne]; [done|]. by apply count_lines_last.
Qed.

Lemma n_lines_of_lines_witness :
  n_lines two_requests = inr 2%nat.
Proof.
  change two_requests
    with (concat (map (fun l => l ++ [10])
                    [dumps (JDict [(py "custom_id", JStr (py "ui-00001-a.png"))]);
                     dumps (JDict [(py "custom_id", JStr (py "ui-00002-a.png"))])]) ++ []).
  rewrite n_lines_of_lines; [reflexivity| | |].
  - repeat constructor; discriminate.
  - constructor.
  - vm_compute. reflexivity.
Defined.

End LineCount.

Section DownloadEdges.

Import run_batch.







End DownloadEdges.
